(** * Scanner router: candidate extraction and resolution cascade

    A shallow embedding of [src/index.js]: the code classifier
    ([isEAN], [isModel], [isSKU], [isURL]), the candidate extractor
    ([extractCandidates]), the catalog gateway ([adminGQL]), the resolver
    ([resolveHandleFromCode]) and the two route handlers
    ([/scan-lookup] and [/r]).

    Conventions of the embedding.
    - A JavaScript string is a Rocq [string] holding its UTF-8 bytes.  All
      patterns of the source are ASCII, so a byte at or above 128 never
      matches a character class, and [encodeURIComponent] works byte by byte.
    - [null] and [undefined] are [None].
    - A computation that may throw and that mutates a store is a function
      [S -> outcome A * S]; the store survives a [throw], as it does in
      JavaScript. *)

From Stdlib Require Import List String Ascii Bool Arith ZArith NArith Lia.
From Stdlib Require Import Sorting.Sorted Sorting.Permutation.
Import ListNotations.
Local Open Scope string_scope.

(** ** Strings *)

Module Str.

Definition code (c : ascii) : N := N_of_ascii c.

Definition between (lo hi : N) (c : ascii) : bool :=
  ((lo <=? code c) && (code c <=? hi))%N.

(** [\d] *)
Definition is_digit (c : ascii) : bool := between 48 57 c.
Definition is_upper (c : ascii) : bool := between 65 90 c.
Definition is_lower (c : ascii) : bool := between 97 122 c.

(** [[A-Z0-9._-]] under the [i] flag *)
Definition is_code_char (c : ascii) : bool :=
  is_upper c || is_lower c || is_digit c
  || (code c =? 46)%N || (code c =? 95)%N || (code c =? 45)%N.

(** Case folding of the [i] flag on ASCII. *)
Definition lower (c : ascii) : ascii :=
  if is_upper c then ascii_of_N (code c + 32) else c.

Fixpoint all_chars (p : ascii -> bool) (s : string) : bool :=
  match s with
  | EmptyString => true
  | String c r => p c && all_chars p r
  end.

(** [^[p]{lo,hi}$]; [hi = None] is the open bound [{lo,}]. *)
Definition class_run (p : ascii -> bool) (lo : nat) (hi : option nat)
    (s : string) : bool :=
  all_chars p s
  && (lo <=? String.length s)%nat
  && match hi with
     | Some h => (String.length s <=? h)%nat
     | None => true
     end.

(** [strip_prefix_ci p s]: the rest of [s] after the prefix [p], compared
    without case. *)
Fixpoint strip_prefix_ci (p s : string) : option string :=
  match p with
  | EmptyString => Some s
  | String a p' =>
      match s with
      | EmptyString => None
      | String b s' =>
          if Ascii.eqb (lower a) (lower b) then strip_prefix_ci p' s'
          else None
      end
  end.

Fixpoint take_while (p : ascii -> bool) (s : string) : string :=
  match s with
  | EmptyString => EmptyString
  | String c r => if p c then String c (take_while p r) else EmptyString
  end.

(** White space of [String.prototype.trim] (WhiteSpace and
    LineTerminator), by the length of its UTF-8 form. *)
Definition ws1 (a : ascii) : bool :=
  between 9 13 a || (code a =? 32)%N.

(** U+00A0 *)
Definition ws2 (a b : ascii) : bool :=
  (code a =? 194)%N && (code b =? 160)%N.

(** U+1680, U+2000..U+200A, U+2028, U+2029, U+202F, U+205F, U+3000,
    U+FEFF *)
Definition ws3 (a b c : ascii) : bool :=
  ((code a =? 225) && (code b =? 154) && (code c =? 128))%N
  || ((code a =? 226) && (code b =? 128)
      && (between 128 138 c || between 168 169 c || (code c =? 175)))%N
  || ((code a =? 226) && (code b =? 129) && (code c =? 159))%N
  || ((code a =? 227) && (code b =? 128) && (code c =? 128))%N
  || ((code a =? 239) && (code b =? 187) && (code c =? 191))%N.

(** Drops the leading characters recognised by [p1], [p2], [p3]. *)
Fixpoint strip (p1 : ascii -> bool) (p2 : ascii -> ascii -> bool)
    (p3 : ascii -> ascii -> ascii -> bool) (s : list ascii) : list ascii :=
  match s with
  | [] => []
  | a :: r =>
      if p1 a then strip p1 p2 p3 r
      else
        match r with
        | [] => s
        | b :: r2 =>
            if p2 a b then strip p1 p2 p3 r2
            else
              match r2 with
              | [] => s
              | c :: r3 => if p3 a b c then strip p1 p2 p3 r3 else s
              end
        end
  end.

Definition trimStart (s : list ascii) : list ascii := strip ws1 ws2 ws3 s.

Definition trimEnd (s : list ascii) : list ascii :=
  rev (strip ws1 (fun b a => ws2 a b) (fun c b a => ws3 a b c) (rev s)).

(** [s.trim()] *)
Definition trim (s : string) : string :=
  string_of_list_ascii (trimEnd (trimStart (list_ascii_of_string s))).

(** [s.split(sep)] for a one-character separator: never empty. *)
Fixpoint split (sep : ascii) (s : string) : list string :=
  match s with
  | EmptyString => [EmptyString]
  | String c r =>
      if Ascii.eqb c sep then EmptyString :: split sep r
      else
        match split sep r with
        | h :: t => String c h :: t
        | [] => [String c EmptyString]
        end
  end.

(** [a.pop()], or [a[a.length - 1]]: [undefined] on the empty array. *)
Fixpoint pop (a : list string) : option string :=
  match a with
  | [] => None
  | [x] => Some x
  | _ :: r => pop r
  end.

Definition is_empty (s : string) : bool :=
  match s with
  | EmptyString => true
  | _ => false
  end.

Definition hex_digit (n : N) : ascii :=
  if (n <? 10)%N then ascii_of_N (48 + n) else ascii_of_N (55 + n).

(** The characters [encodeURIComponent] leaves alone:
    [A-Z a-z 0-9 - _ . ! ~ * ' ( )]. *)
Definition is_unreserved (c : ascii) : bool :=
  is_upper c || is_lower c || is_digit c
  || existsb (fun n => (code c =? n)%N) [45; 95; 46; 33; 126; 42; 39; 40; 41]%N.

Fixpoint encodeURIComponent (s : string) : string :=
  match s with
  | EmptyString => EmptyString
  | String c r =>
      if is_unreserved c then String c (encodeURIComponent r)
      else
        String "%"
          (String (hex_digit (code c / 16))
             (String (hex_digit (code c mod 16)) (encodeURIComponent r)))
  end.

End Str.

(** ** Code classifier (index.js, 31-44) *)

(** [/^\d{8}$|^\d{12,14}$/.test(s.trim())] *)
Definition isEAN (s : string) : bool :=
  Str.class_run Str.is_digit 8 (Some 8) (Str.trim s)
  || Str.class_run Str.is_digit 12 (Some 14) (Str.trim s).

(** [/^\d{6,8}$/.test(s.trim())] *)
Definition isModel (s : string) : bool :=
  Str.class_run Str.is_digit 6 (Some 8) (Str.trim s).

(** [/^[A-Z0-9._-]{5,}$/i.test(s.trim())] *)
Definition isSKU (s : string) : bool :=
  Str.class_run Str.is_code_char 5 None (Str.trim s).

(** [/^https?:\/\//i.test(s.trim())] *)
Definition isURL (s : string) : bool :=
  match Str.strip_prefix_ci "http://" (Str.trim s) with
  | Some _ => true
  | None =>
      match Str.strip_prefix_ci "https://" (Str.trim s) with
      | Some _ => true
      | None => false
      end
  end.

(** ** JSON values, as far as the code looks into them *)

(** A value of a JSON document.  The code only tests such a value for
    truthiness, so a number keeps whether it is zero, and an array or an
    object keeps its JSON text. *)
Inductive JsValue : Type :=
  | JNull
  | JBool (b : bool)
  | JNumber (zero : bool)
  | JString (s : string)
  | JObject (text : string).

(** JavaScript truthiness of a field that may be absent ([undefined]):
    [undefined], [null], [false], [0] and the empty string are falsy, every
    array and object is truthy. *)
Definition truthy (v : option JsValue) : bool :=
  match v with
  | None => false
  | Some JNull => false
  | Some (JBool b) => b
  | Some (JNumber zero) => negb zero
  | Some (JString s) => negb (Str.is_empty s)
  | Some (JObject _) => true
  end.

(** ** Computations that throw and mutate a store *)

(** What is thrown: a [TypeError], an [Error] with its message, or the
    [new Error(JSON.stringify(j.errors))] of [adminGQL], kept with the value
    of [j.errors]. *)
Inductive exn : Type :=
  | TypeError (msg : string)
  | Error (msg : string)
  | GatewayError (errors : option JsValue).

Inductive outcome (A : Type) : Type :=
  | Normal (a : A)
  | Throw (e : exn).
Arguments Normal {A} a.
Arguments Throw {A} e.

Definition M (S A : Type) : Type := S -> outcome A * S.

Definition ret {S A : Type} (a : A) : M S A := fun s => (Normal a, s).

Definition bind {S A B : Type} (m : M S A) (k : A -> M S B) : M S B :=
  fun s =>
    match m s with
    | (Normal a, s') => k a s'
    | (Throw e, s') => (Throw e, s')
    end.

Definition throw {S A : Type} (e : exn) : M S A := fun s => (Throw e, s).

(** [try { body } catch (e) { handler }] *)
Definition try_catch {S A : Type} (body : M S A) (handler : exn -> M S A)
    : M S A :=
  fun s =>
    match body s with
    | (Normal a, s') => (Normal a, s')
    | (Throw e, s') => handler e s'
    end.

(** A computation that does not touch the store. *)
Definition lift {S A : Type} (o : outcome A) : M S A := fun s => (o, s).

Declare Scope js_scope.
Delimit Scope js_scope with js.
Notation "x <- m ;; k" := (bind m (fun x => k))
  (at level 61, m at next level, right associativity) : js_scope.
Notation "m ;; k" := (bind m (fun _ => k))
  (at level 61, right associativity) : js_scope.
Local Open Scope js_scope.

(** [xs.forEach(f)] *)
Fixpoint forEach {S A : Type} (xs : list A) (f : A -> M S unit) : M S unit :=
  match xs with
  | [] => ret tt
  | x :: r => f x ;; forEach r f
  end.

(** [for (const x of xs) { body }] where the body may [return]: the body
    yields [Some r] when it returns [r] from the enclosing function. *)
Fixpoint for_of {S A R : Type} (xs : list A) (body : A -> M S (option R))
    : M S (option R) :=
  match xs with
  | [] => ret None
  | x :: r =>
      o <- body x ;;
      match o with
      | Some v => ret (Some v)
      | None => for_of r body
      end
  end.

(** ** Candidate extractor (index.js, 52-100) *)

(** The part of a [URL] object the extractor reads: the decoded query
    pairs in order, the path and the fragment (empty, or starting with
    [#]). *)
Record URL : Type := {
  searchParams : list (string * string);
  pathname : string;
  hash : string
}.

(** [u.searchParams.get(k)]: the first value of that name, or [null]. *)
Definition searchParams_get (k : string) (ps : list (string * string))
    : option string :=
  match find (fun p => String.eqb (fst p) k) ps with
  | Some p => Some (snd p)
  | None => None
  end.

(** A [Set] of strings, in insertion order. *)
Definition Set_add (x : string) : M (list string) unit :=
  fun out =>
    (Normal tt, if existsb (String.eqb x) out then out else (out ++ [x])%list).

Definition candKeys : list string :=
  ["ean"; "gtin"; "barcode"; "sku"; "model"; "code"; "id"].

Definition fragKeys : list string :=
  ["ean"; "gtin"; "barcode"; "sku"; "model"; "code"].

(** [frag.replace(/^#/, empty)]: drops one leading [#]. *)
Definition drop_hash (h : string) : string :=
  match h with
  | String "#" r => r
  | _ => h
  end.

(** One alternative of [(ean|...|code)=([A-Z0-9._-]+)] at the head of
    [s]: the second group. *)
Definition frag_alt (s : string) (k : string) : option string :=
  match Str.strip_prefix_ci k s with
  | Some (String "=" r) =>
      let v := Str.take_while Str.is_code_char r in
      if Str.is_empty v then None else Some v
  | _ => None
  end.

Fixpoint frag_here (ks : list string) (s : string) : option string :=
  match ks with
  | [] => None
  | k :: r =>
      match frag_alt s k with
      | Some v => Some v
      | None => frag_here r s
      end
  end.

(** [frag.match(/(ean|gtin|barcode|sku|model|code)=([A-Z0-9._-]+)/i)],
    as [m[2]] of the leftmost match. *)
Fixpoint frag_match (s : string) : option string :=
  match frag_here fragKeys s with
  | Some v => Some v
  | None =>
      match s with
      | EmptyString => None
      | String _ r => frag_match r
      end
  end.

(** [score] of the comparator (index.js, 95). *)
Definition score (x : string) : Z :=
  if isEAN x then 3 else if isSKU x then 2 else if isModel x then 1 else 0.

(** [(a, b) => score(b) - score(a)] *)
Definition comparator (a b : string) : Z := (score b - score a)%Z.

(** [Array.prototype.sort]: a stable sort, as ECMAScript 2019 requires.
    [x] stays in front of [y] when [cmp x y <= 0]. *)
Fixpoint sort_insert {A : Type} (cmp : A -> A -> Z) (x : A) (l : list A)
    : list A :=
  match l with
  | [] => [x]
  | y :: r => if (cmp x y <=? 0)%Z then x :: l else y :: sort_insert cmp x r
  end.

Fixpoint Array_sort {A : Type} (cmp : A -> A -> Z) (l : list A) : list A :=
  match l with
  | [] => []
  | x :: r => sort_insert cmp x (Array_sort cmp r)
  end.

Section Extractor.

(** [new URL(s)] of the platform: [None] when it throws. *)
Variable URL_parse : string -> option URL.

Definition new_URL {S : Type} (s : string) : M S URL :=
  match URL_parse s with
  | Some u => ret u
  | None => throw (TypeError "Invalid URL")
  end.

(** The body of the [try] block (index.js, 61-81). *)
Definition scrape_URL (s : string) : M (list string) unit :=
  u <- new_URL s ;;
  forEach candKeys (fun k =>
    match searchParams_get k (searchParams u) with
    | Some v => if Str.is_empty v then ret tt else Set_add (Str.trim v)
    | None => ret tt
    end) ;;
  (let segs :=
     filter (fun x => negb (Str.is_empty x)) (Str.split "/" (pathname u)) in
   match Str.pop segs with
   | Some last =>
       if Str.class_run Str.is_code_char 1 None last then Set_add last
       else ret tt
   | None => ret tt
   end) ;;
  match frag_match (drop_hash (hash u)) with
  | Some v => Set_add v
  | None => ret tt
  end.

Definition extractCandidates (raw : option string)
    : outcome (list string) :=
  match raw with
  | None => Normal []
  | Some r =>
      if Str.is_empty r then Normal []
      else
        let s := Str.trim r in
        let fill : M (list string) unit :=
          if isURL s then try_catch (scrape_URL s) (fun _ => ret tt)
          else Set_add s in
        match fill [] with
        | (Normal _, out) => Normal (Array_sort comparator out)
        | (Throw e, _) => Throw e
        end
  end.

End Extractor.

(** The platform's [new URL] at the inputs used as test data below.  The
    table says nothing about other inputs, which no statement uses. *)
Definition URL_table (s : string) : option URL :=
  if String.eqb s "https://shop.example/p/123?ean=3608459693135" then
    Some {| searchParams := [("ean", "3608459693135")];
            pathname := "/p/123"; hash := EmptyString |}
  else if String.eqb s "https://decathlon.re/p/3608459693135" then
    Some {| searchParams := []; pathname := "/p/3608459693135"; hash := EmptyString |}
  else if String.eqb s "https://decathlon.re/p?sku=%20#Code=AB-1/x" then
    Some {| searchParams := [("sku", " ")]; pathname := "/p";
            hash := "#Code=AB-1/x" |}
  else None.

(** ** Catalog gateway (index.js, 104-146) *)

Inductive QueryDoc : Type :=
  | Q_VARIANT_BY_QUERY
  | Q_PRODUCTS_BY_QUERY.

(** [product { id handle title }] *)
Record Product : Type := {
  product_handle : option string
}.

(** A node of [productVariants(first: 1, query: $q)]. *)
Record VariantNode : Type := {
  variant_id : option string;
  variant_product : option Product
}.

(** A node of [products(first: 3, query: $q)].  [node_variants] is
    [p.variants.edges], each edge by the [id] of its node; it is [None]
    when [variants] or its [edges] are missing, where the code's unguarded
    [p.variants.edges[0]] throws. *)
Record ProductNode : Type := {
  node_handle : option string;
  node_variants : option (list (option string))
}.

(** [j.data].  A connection is the list of its [edges], each edge by its
    node ([None] for a null edge or node); the connection is [None] when it
    or its [edges] are missing, where the code's unguarded
    [d.productVariants.edges[0]] and [d.products.edges[0]] throw. *)
Record Data : Type := {
  productVariants : option (list (option VariantNode));
  products : option (list (option ProductNode))
}.

(** What [fetch] and [r.json()] give: a rejection; the body [null]; or a
    body [j] with its fields [errors] and [data], each [None] when absent
    or, for [data], null.  A body that is a number, a string, a boolean or
    an array has neither field and is an [Envelope None None]. *)
Inductive Reply : Type :=
  | TransportFailure (reason : string)
  | NullBody
  | Envelope (errors : option JsValue) (data : option Data).

(** The body [{ query, variables }] of a request, [variables] being
    [{ q }]. *)
Record Request : Type := {
  query : QueryDoc;
  variables : string
}.

(** The requests sent upstream so far, each with its reply. *)
Abbreviation Trace := (list (Request * Reply)).

Definition dquote : string := String (ascii_of_nat 34) EmptyString.

(** The message of the [TypeError] of a property read on [undefined] or
    [null]; no code looks at it. *)
Definition cannot_read : string := "Cannot read properties of undefined".

(** What [resolveHandleFromCode] returns when it is not [null]. *)
Record Result : Type := {
  handle : string;
  variantId : option string;
  source : string
}.

(** [edges[0]?.node] *)
Definition first_node {A : Type} (edges : list (option A)) : option A :=
  match hd_error edges with
  | Some node => node
  | None => None
  end.

(** [d.productVariants.edges[0]?.node] *)
Definition first_variant (d : option Data) : outcome (option VariantNode) :=
  match d with
  | Some d =>
      match productVariants d with
      | Some edges => Normal (first_node edges)
      | None => Throw (TypeError cannot_read)
      end
  | None => Throw (TypeError cannot_read)
  end.

(** [d.products.edges[0]?.node] *)
Definition first_product (d : option Data) : outcome (option ProductNode) :=
  match d with
  | Some d =>
      match products d with
      | Some edges => Normal (first_node edges)
      | None => Throw (TypeError cannot_read)
      end
  | None => Throw (TypeError cannot_read)
  end.

(** [v?.product?.handle] truthy, and the object returned then. *)
Definition variant_result (v : option VariantNode) (src : string)
    : option Result :=
  match v with
  | Some v =>
      match variant_product v with
      | Some p =>
          match product_handle p with
          | Some h =>
              if Str.is_empty h then None
              else Some {| handle := h; variantId := variant_id v;
                           source := src |}
          | None => None
          end
      | None => None
      end
  | None => None
  end.

(** [p?.handle] truthy, and the object returned then, with
    [p.variants.edges[0]?.node?.id]. *)
Definition product_result (p : option ProductNode) (src : string)
    : outcome (option Result) :=
  match p with
  | Some p =>
      match node_handle p with
      | Some h =>
          if Str.is_empty h then Normal None
          else
            match node_variants p with
            | Some edges =>
                Normal (Some {| handle := h; variantId := first_node edges;
                                source := src |})
            | None => Throw (TypeError cannot_read)
            end
      | None => Normal None
      end
  | None => Normal None
  end.

(** [if (...) return r;] followed by the rest of the function. *)
Definition or_else {S A : Type} (m : M S (option A)) (k : M S (option A))
    : M S (option A) :=
  o <- m ;;
  match o with
  | Some r => ret (Some r)
  | None => k
  end.

(** The body of the JSON replies of the routes. *)
Inductive Body : Type :=
  | ErrorBody (error : string)
  | ResultBody (handle : option string) (variantId : option string)
      (source : string) (url : string) (tried : list string).

Inductive Response : Type :=
  | Json (status : nat) (body : Body)
  | Send (status : nat) (text : string)
  | Redirect (status : nat) (url : string).

(** [result.variantId?.split("/").pop()] *)
Definition variantIdShort (r : Result) : option string :=
  match variantId r with
  | Some id => Str.pop (Str.split "/" id)
  | None => None
  end.

(** The [url] of a match (index.js, 226-229 and 261-264). *)
Definition product_url (r : Result) : string :=
  match variantIdShort r with
  | Some short =>
      if Str.is_empty short then
        "https://decathlon.re/products/" ++ handle r
      else
        "https://decathlon.re/products/" ++ handle r ++ "?variant=" ++ short
  | None => "https://decathlon.re/products/" ++ handle r
  end.

(** [`https://decathlon.re/search?q=${encodeURIComponent(String(raw).trim())}`] *)
Definition search_url (raw : string) : string :=
  "https://decathlon.re/search?q=" ++ Str.encodeURIComponent (Str.trim raw).

Section Resolver.

Variable URL_parse : string -> option URL.

(** The catalog: its reply to a request, given the requests before. *)
Variable upstream : Trace -> Request -> Reply.

(** [adminGQL(query, { q })]: [j.errors] is tested for truthiness, and
    [j.data] is returned as it is. *)
Definition adminGQL (query : QueryDoc) (q : string)
    : M Trace (option Data) :=
  fun t =>
    let req := {| query := query; variables := q |} in
    let j := upstream t req in
    let t' := (t ++ [(req, j)])%list in
    match j with
    | TransportFailure reason => (Throw (Error reason), t')
    | NullBody => (Throw (TypeError cannot_read), t')
    | Envelope errors data =>
        if truthy errors then (Throw (GatewayError errors), t')
        else (Normal data, t')
    end.

(** index.js, 155-204 *)
Definition resolveHandleFromCode (code : string)
    : M Trace (option Result) :=
  let c := Str.trim code in
  or_else
    (if isEAN c then
       d <- adminGQL Q_VARIANT_BY_QUERY ("barcode:" ++ c) ;;
       v <- lift (first_variant d) ;;
       ret (variant_result v "barcode")
     else ret None)
  (or_else
    (if isSKU c then
       d <- adminGQL Q_VARIANT_BY_QUERY ("sku:" ++ c) ;;
       v <- lift (first_variant d) ;;
       ret (variant_result v "sku")
     else ret None)
  (or_else
    (if isModel c then
       or_else
         (d <- adminGQL Q_PRODUCTS_BY_QUERY
                ("tag:" ++ dquote ++ "Model: " ++ c ++ dquote) ;;
          p <- lift (first_product d) ;;
          lift (product_result p "tag:model"))
         (d <- adminGQL Q_PRODUCTS_BY_QUERY c ;;
          p <- lift (first_product d) ;;
          lift (product_result p "search:model"))
     else ret None)
    (d <- adminGQL Q_PRODUCTS_BY_QUERY c ;;
     p <- lift (first_product d) ;;
     lift (product_result p "search:any")))).

(** [result?.handle] *)
Definition has_handle (result : option Result) : bool :=
  match result with
  | Some r => negb (Str.is_empty (handle r))
  | None => false
  end.

(** [GET /scan-lookup?raw=...] (index.js, 216-245) *)
Definition scan_lookup (raw : option string) : M Trace Response :=
  match raw with
  | None => ret (Json 400 (ErrorBody "Missing raw param"))
  | Some r =>
      if Str.is_empty r then ret (Json 400 (ErrorBody "Missing raw param"))
      else
        try_catch
          (candidates <- lift (extractCandidates URL_parse raw) ;;
           found <- for_of candidates (fun cand =>
             result <- resolveHandleFromCode cand ;;
             match result with
             | Some res =>
                 if has_handle result then
                   ret (Some (Json 200
                     (ResultBody (Some (handle res)) (variantId res)
                        (source res) (product_url res) candidates)))
                 else ret None
             | None => ret None
             end) ;;
           match found with
           | Some response => ret response
           | None =>
               ret (Json 200
                 (ResultBody None None "fallback:search" (search_url r)
                    candidates))
           end)
          (fun _ => ret (Json 500 (ErrorBody "lookup_failed")))
  end.

(** [GET /r?raw=...] (index.js, 251-275) *)
Definition r_redirect (raw : option string) : M Trace Response :=
  match raw with
  | None => ret (Send 400 "Missing raw")
  | Some r =>
      if Str.is_empty r then ret (Send 400 "Missing raw")
      else
        try_catch
          (candidates <- lift (extractCandidates URL_parse raw) ;;
           found <- for_of candidates (fun cand =>
             result <- resolveHandleFromCode cand ;;
             match result with
             | Some res =>
                 if has_handle result then
                   ret (Some (Redirect 302 (product_url res)))
                 else ret None
             | None => ret None
             end) ;;
           match found with
           | Some response => ret response
           | None => ret (Redirect 302 (search_url r))
           end)
          (fun _ => ret (Redirect 302 (search_url r)))
  end.

End Resolver.

(** ** The cascade as the specification words it (section 4.4)

    Five strategies in a fixed order; a strategy that applies to the
    candidate sends one request, and the first one whose reply yields a
    product handle ends the cascade.  [run_cascade] is written on the
    trace itself, without the combinators of the embedding, and is
    compared below with [resolveHandleFromCode]. *)

Inductive Strategy : Type :=
  | ByBarcode
  | BySku
  | ByModelTag
  | ByModelSearch
  | ByAnySearch.

Definition cascade_order : list Strategy :=
  [ByBarcode; BySku; ByModelTag; ByModelSearch; ByAnySearch].

Definition applies (c : string) (st : Strategy) : bool :=
  match st with
  | ByBarcode => isEAN c
  | BySku => isSKU c
  | ByModelTag | ByModelSearch => isModel c
  | ByAnySearch => true
  end.

Definition request_of (c : string) (st : Strategy) : Request :=
  match st with
  | ByBarcode =>
      {| query := Q_VARIANT_BY_QUERY; variables := "barcode:" ++ c |}
  | BySku => {| query := Q_VARIANT_BY_QUERY; variables := "sku:" ++ c |}
  | ByModelTag =>
      {| query := Q_PRODUCTS_BY_QUERY;
         variables := "tag:" ++ dquote ++ "Model: " ++ c ++ dquote |}
  | ByModelSearch | ByAnySearch =>
      {| query := Q_PRODUCTS_BY_QUERY; variables := c |}
  end.

Definition source_of (st : Strategy) : string :=
  match st with
  | ByBarcode => "barcode"
  | BySku => "sku"
  | ByModelTag => "tag:model"
  | ByModelSearch => "search:model"
  | ByAnySearch => "search:any"
  end.

(** What the data of a reply holds for a query document: the first
    variant's product, or the first product, when it has a handle; a throw
    where reading it throws. *)
Definition match_in (q : QueryDoc) (src : string) (d : option Data)
    : outcome (option Result) :=
  match q with
  | Q_VARIANT_BY_QUERY =>
      match first_variant d with
      | Normal v => Normal (variant_result v src)
      | Throw e => Throw e
      end
  | Q_PRODUCTS_BY_QUERY =>
      match first_product d with
      | Normal p => product_result p src
      | Throw e => Throw e
      end
  end.

(** What one call makes of its reply: a match, no match, or a throw. *)
Definition reply_result (q : QueryDoc) (src : string) (j : Reply)
    : outcome (option Result) :=
  match j with
  | TransportFailure reason => Throw (Error reason)
  | NullBody => Throw (TypeError cannot_read)
  | Envelope errors data =>
      if truthy errors then Throw (GatewayError errors)
      else match_in q src data
  end.

Section Cascade.

Variable upstream : Trace -> Request -> Reply.

Fixpoint run_cascade (sts : list Strategy) (c : string) (t : Trace)
    : outcome (option Result) * Trace :=
  match sts with
  | [] => (Normal None, t)
  | st :: rest =>
      if applies c st then
        let req := request_of c st in
        let j := upstream t req in
        let t' := (t ++ [(req, j)])%list in
        match reply_result (query req) (source_of st) j with
        | Normal (Some r) => (Normal (Some r), t')
        | Normal None => run_cascade rest c t'
        | Throw e => (Throw e, t')
        end
      else run_cascade rest c t
  end.

End Cascade.

(** The requests the cascade may send for a candidate, in order. *)
Definition planned (c : string) : list Request :=
  map (request_of c) (filter (applies c) cascade_order).

(** ** Gateway calls, as the trace shows them *)

(** The call raised: the transport failed, the body was [null], or the
    envelope has a truthy [errors]. *)
Definition reply_raises (j : Reply) : bool :=
  match j with
  | TransportFailure _ => true
  | NullBody => true
  | Envelope errors _ => truthy errors
  end.

(** The call returned a match. *)
Definition reply_matches (q : QueryDoc) (j : Reply) : bool :=
  match reply_result q EmptyString j with
  | Normal (Some _) => true
  | _ => false
  end.

(** The call returned, and reading the first node of its data threw. *)
Definition reply_breaks (q : QueryDoc) (j : Reply) : bool :=
  negb (reply_raises j)
  && match reply_result q EmptyString j with
     | Throw _ => true
     | _ => false
     end.

Definition call_raised (e : Request * Reply) : bool := reply_raises (snd e).

Definition call_matched (e : Request * Reply) : bool :=
  reply_matches (query (fst e)) (snd e).

Definition call_broke (e : Request * Reply) : bool :=
  reply_breaks (query (fst e)) (snd e).

(** ** Catalogs used as test data *)

Definition no_data : Data :=
  {| productVariants := Some []; products := Some [] |}.

(** A catalog without products. *)
Definition catalog_empty : Trace -> Request -> Reply :=
  fun _ _ => Envelope None (Some no_data).

(** A catalog that cannot be reached. *)
Definition catalog_down : Trace -> Request -> Reply :=
  fun _ _ => TransportFailure "ECONNREFUSED".

(** A catalog whose replies carry [errors: null] beside their data. *)
Definition catalog_null_errors : Trace -> Request -> Reply :=
  fun _ _ => Envelope (Some JNull) (Some no_data).

(** A catalog whose replies carry neither [errors] nor [data]. *)
Definition catalog_no_data : Trace -> Request -> Reply :=
  fun _ _ => Envelope None None.

(** A catalog with one variant found by its barcode, and one product
    without variants found by free text. *)
Definition catalog_sample : Trace -> Request -> Reply :=
  fun _ req =>
    match query req with
    | Q_VARIANT_BY_QUERY =>
        if String.eqb (variables req) "barcode:3608459693135" then
          Envelope None
            (Some
              {| productVariants :=
                   Some
                     [Some
                        {| variant_id :=
                             Some "gid://shopify/ProductVariant/12345";
                           variant_product :=
                             Some {| product_handle :=
                                       Some "some-product" |} |}];
                 products := Some [] |})
        else Envelope None (Some no_data)
    | Q_PRODUCTS_BY_QUERY =>
        if String.eqb (variables req) "KIT-1" then
          Envelope None
            (Some
              {| productVariants := Some [];
                 products :=
                   Some [Some {| node_handle := Some "kit";
                                 node_variants := Some [] |}] |})
        else Envelope None (Some no_data)
    end.

(** ** Vocabulary of the statements *)

(** [descending key a b]: [a] may stand before [b] in an array sorted by
    decreasing [key]. *)
Definition descending {A : Type} (key : A -> Z) (a b : A) : Prop :=
  (key b <= key a)%Z.

(** [precedes a b l]: an occurrence of [a] comes before one of [b]. *)
Definition precedes {A : Type} (a b : A) (l : list A) : Prop :=
  exists l1 l2 l3, l = (l1 ++ a :: l2 ++ b :: l3)%list.

(** The loop of the two routes up to the response it builds: [wrap] makes
    the response out of the match. *)
Definition loop_body (upstream : Trace -> Request -> Reply) {R : Type}
    (wrap : Result -> R) (cand : string) : M Trace (option R) :=
  result <- resolveHandleFromCode upstream cand ;;
  match result with
  | Some res => if has_handle result then ret (Some (wrap res)) else ret None
  | None => ret None
  end.

(** The first candidate, in order, that resolves to a match. *)
Definition first_hit (upstream : Trace -> Request -> Reply)
    (candidates : list string) : M Trace (option Result) :=
  for_of candidates (loop_body upstream (fun res => res)).

(** [stuck p1 p2 p3 s]: [s] does not start with a character recognised by
    [p1], [p2] or [p3], so that [Str.strip] leaves it alone. *)
Definition stuck (p1 : ascii -> bool) (p2 : ascii -> ascii -> bool)
    (p3 : ascii -> ascii -> ascii -> bool) (s : list ascii) : Prop :=
  match s with
  | [] => True
  | a :: r =>
      p1 a = false
      /\ match r with
         | [] => True
         | b :: r2 =>
             p2 a b = false
             /\ match r2 with
                | [] => True
                | c :: _ => p3 a b c = false
                end
         end
  end.

(** [keeps P m]: [m] leaves the store in [P] when it starts in [P],
    whether it returns or throws. *)
Definition keeps {S A : Type} (P : S -> Prop) (m : M S A) : Prop :=
  forall s, P s -> P (snd (m s)).

(** ** Vocabulary of the further properties *)

(** [adds P m]: from any store, [m] returns normally and leaves in the
    store the strings it had and those of [P], no others. *)
Definition adds {A : Type} (P : string -> Prop) (m : M (list string) A)
    : Prop :=
  forall s,
    (exists a, fst (m s) = Normal a)
    /\ forall c, In c (snd (m s)) <-> In c s \/ P c.

(** [grows k m]: [m] adds at most [k] strings to the store. *)
Definition grows {A : Type} (k : nat) (m : M (list string) A) : Prop :=
  forall s, List.length (snd (m s)) <= List.length s + k.

(** [call_quiet x]: the call returned, its data could be read, and it
    held no match. *)
Definition call_quiet (x : Request * Reply) : Prop :=
  call_raised x = false /\ call_matched x = false /\ call_broke x = false.

(** The value of a hexadecimal digit, and the byte two digits stand
    for. *)
Definition unhex (a : ascii) : N :=
  if Str.is_digit a then (Str.code a - 48)%N else (Str.code a - 55)%N.

Definition byte_of_hex (a b : ascii) : ascii :=
  ascii_of_N (16 * unhex a + unhex b).

(** The characters a query value may hold without further escaping. *)
Definition query_safe (c : ascii) : bool :=
  Str.is_unreserved c || Ascii.eqb c "%".

(** * Properties *)

(** ** Runs of the code on test data *)

Example isEAN_13 : isEAN " 3608459693135 " = true.
Proof. reflexivity. Qed.
Example isEAN_9 : isEAN "123456789" = false.
Proof. reflexivity. Qed.
Example isModel_7 : isModel "6401234" = true.
Proof. reflexivity. Qed.
Example isSKU_mixed : isSKU "ab-12._X" = true.
Proof. reflexivity. Qed.
Example isSKU_short : isSKU "ab12" = false.
Proof. reflexivity. Qed.
Example isURL_upper : isURL "  HTTPS://x" = true.
Proof. reflexivity. Qed.
Example isURL_no : isURL "ftp://x" = false.
Proof. reflexivity. Qed.
Example encode_space : Str.encodeURIComponent "a b/c" = "a%20b%2Fc".
Proof. reflexivity. Qed.
Example split_id :
  Str.pop (Str.split "/" "gid://shopify/ProductVariant/12345") = Some "12345".
Proof. reflexivity. Qed.
Example trim_unicode :
  Str.trim (String "194" (String "160" " a b  ")) = "a b".
Proof. reflexivity. Qed.
Example frag_leftmost : frag_match "xxmodel=code=12.3&" = Some "code".
Proof. reflexivity. Qed.
Example extract_URL :
  extractCandidates URL_table
    (Some "https://shop.example/p/123?ean=3608459693135")
  = Normal ["3608459693135"; "123"].
Proof. reflexivity. Qed.
Example extract_passthrough :
  forall URL_parse, extractCandidates URL_parse (Some "6401234")
                    = Normal ["6401234"].
Proof. reflexivity. Qed.
Example scenario_barcode :
  fst (scan_lookup URL_table catalog_sample
         (Some "https://decathlon.re/p/3608459693135") [])
  = Normal (Json 200
      (ResultBody (Some "some-product")
         (Some "gid://shopify/ProductVariant/12345") "barcode"
         "https://decathlon.re/products/some-product?variant=12345"
         ["3608459693135"])).
Proof. reflexivity. Qed.


(** ** Trimming *)

Section Strip.

Variable p1 : ascii -> bool.
Variable p2 : ascii -> ascii -> bool.
Variable p3 : ascii -> ascii -> ascii -> bool.

Lemma strip_stuck_bounded (n : nat) (s : list ascii) :
  List.length s <= n -> stuck p1 p2 p3 (Str.strip p1 p2 p3 s).
Proof.
  revert s. induction n as [|n IH]; intros s Hlen.
  - destruct s; [exact I | simpl in Hlen; lia].
  - destruct s as [|a r]; [exact I|]. simpl in Hlen.
    cbn [Str.strip]. destruct (p1 a) eqn:E1; [apply IH; lia|].
    destruct r as [|b r2]; [simpl; auto|]. simpl in Hlen.
    destruct (p2 a b) eqn:E2; [apply IH; lia|].
    destruct r2 as [|c r3]; [simpl; auto|]. simpl in Hlen.
    destruct (p3 a b c) eqn:E3; [apply IH; lia|].
    simpl; auto.
Qed.

Lemma strip_stuck (s : list ascii) : stuck p1 p2 p3 (Str.strip p1 p2 p3 s).
Proof. apply (strip_stuck_bounded (List.length s)). lia. Qed.

Lemma stuck_strip (s : list ascii) :
  stuck p1 p2 p3 s -> Str.strip p1 p2 p3 s = s.
Proof.
  destruct s as [|a [|b [|c r]]]; simpl; [reflexivity| | |].
  - intros [-> _]. reflexivity.
  - intros [-> [-> _]]. reflexivity.
  - intros [-> [-> ->]]. reflexivity.
Qed.

Lemma stuck_prefix (w x : list ascii) :
  stuck p1 p2 p3 (w ++ x) -> stuck p1 p2 p3 w.
Proof.
  destruct w as [|a [|b [|c r]]]; simpl; [trivial| | |].
  - intros [H _]. auto.
  - intros [H1 [H2 _]]. auto.
  - intros [H1 [H2 H3]]. auto.
Qed.

Lemma strip_suffix_bounded (n : nat) (s : list ascii) :
  List.length s <= n -> exists pre, s = (pre ++ Str.strip p1 p2 p3 s)%list.
Proof.
  revert s. induction n as [|n IH]; intros s Hlen.
  - destruct s; [now exists [] | simpl in Hlen; lia].
  - destruct s as [|a r]; [now exists []|]. simpl in Hlen.
    cbn [Str.strip]. destruct (p1 a).
    { destruct (IH r) as [pre E]; [lia|].
      exists (a :: pre). simpl. now rewrite <- E. }
    destruct r as [|b r2]; [now exists []|]. simpl in Hlen.
    destruct (p2 a b).
    { destruct (IH r2) as [pre E]; [lia|].
      exists (a :: b :: pre). simpl. now rewrite <- E. }
    destruct r2 as [|c r3]; [now exists []|]. simpl in Hlen.
    destruct (p3 a b c); [|now exists []].
    destruct (IH r3) as [pre E]; [lia|].
    exists (a :: b :: c :: pre). simpl. now rewrite <- E.
Qed.

Lemma strip_suffix (s : list ascii) :
  exists pre, s = (pre ++ Str.strip p1 p2 p3 s)%list.
Proof. apply (strip_suffix_bounded (List.length s)). lia. Qed.

End Strip.

Lemma trim_idempotent (s : string) : Str.trim (Str.trim s) = Str.trim s.
Proof.
  unfold Str.trim. rewrite list_ascii_of_string_of_list_ascii.
  set (u := Str.trimStart (list_ascii_of_string s)).
  assert (Hu : stuck Str.ws1 Str.ws2 Str.ws3 u) by apply strip_stuck.
  f_equal. unfold Str.trimEnd at 2 3.
  set (back := Str.strip Str.ws1 (fun b a => Str.ws2 a b)
                 (fun c b a => Str.ws3 a b c) (rev u)).
  assert (Hw : Str.trimStart (rev back) = rev back).
  { apply stuck_strip.
    destruct (strip_suffix Str.ws1 (fun b a => Str.ws2 a b)
                (fun c b a => Str.ws3 a b c) (rev u)) as [pre E].
    fold back in E. apply (f_equal (@rev ascii)) in E.
    rewrite rev_involutive, rev_app_distr in E.
    rewrite E in Hu. eapply stuck_prefix; eauto. }
  rewrite Hw. unfold Str.trimEnd. rewrite rev_involutive.
  f_equal. apply stuck_strip. apply strip_stuck.
Qed.

Lemma classifier_trim (s : string) :
  isEAN (Str.trim s) = isEAN s
  /\ isSKU (Str.trim s) = isSKU s
  /\ isModel (Str.trim s) = isModel s.
Proof.
  unfold isEAN, isSKU, isModel. rewrite trim_idempotent. auto.
Qed.

(** ** Classifier *)

Lemma all_chars_impl (p q : ascii -> bool) (s : string) :
  (forall c, p c = true -> q c = true) ->
  Str.all_chars p s = true -> Str.all_chars q s = true.
Proof.
  intros Hpq. induction s as [|c r IH]; simpl; [reflexivity|].
  intros H. apply andb_true_iff in H as [Hc Hr].
  rewrite (Hpq _ Hc), (IH Hr). reflexivity.
Qed.

Lemma digit_is_code_char (c : ascii) :
  Str.is_digit c = true -> Str.is_code_char c = true.
Proof.
  unfold Str.is_code_char. intros ->.
  rewrite !orb_true_r. reflexivity.
Qed.

Lemma isModel_implies_isSKU (s : string) :
  isModel s = true -> isSKU s = true.
Proof.
  unfold isModel, isSKU, Str.class_run. intros H.
  apply andb_true_iff in H as [H _].
  apply andb_true_iff in H as [Hd Hlen].
  rewrite (all_chars_impl _ _ _ digit_is_code_char Hd).
  apply Nat.leb_le in Hlen.
  rewrite andb_true_r. apply Nat.leb_le. lia.
Qed.

Lemma score_range (s : string) : (0 <= score s <= 3)%Z.
Proof. unfold score. repeat destruct (_ : bool); lia. Qed.

Lemma score_EAN (s : string) : isEAN s = true <-> score s = 3%Z.
Proof.
  unfold score. destruct (isEAN s), (isSKU s), (isModel s);
    split; intros; (reflexivity || discriminate).
Qed.

(** ** The sort *)

Section Sorting.

Context {A : Type} (key : A -> Z).

(** Comparators of the shape of the source's: a difference of keys. *)
Let cmp (a b : A) : Z := (key b - key a)%Z.

Lemma sort_insert_perm (x : A) (l : list A) :
  Permutation (x :: l) (sort_insert cmp x l).
Proof.
  induction l as [|y r IH]; simpl; [reflexivity|].
  destruct (cmp x y <=? 0)%Z; [reflexivity|].
  rewrite perm_swap. now constructor.
Qed.

Lemma Array_sort_perm (l : list A) : Permutation l (Array_sort cmp l).
Proof.
  induction l as [|x r IH]; simpl; [constructor|].
  rewrite <- sort_insert_perm. now constructor.
Qed.

Lemma sort_insert_sorted (x : A) (l : list A) :
  StronglySorted (descending key) l ->
  StronglySorted (descending key) (sort_insert cmp x l).
Proof.
  induction 1 as [|y r Hr IH Hy]; simpl.
  - repeat constructor.
  - destruct (cmp x y <=? 0)%Z eqn:E.
    + apply Z.leb_le in E. unfold cmp in E.
      constructor; [now constructor|].
      constructor; [unfold descending; lia|].
      eapply Forall_impl; [|exact Hy].
      unfold descending. intros; lia.
    + apply Z.leb_gt in E. unfold cmp in E.
      constructor; [exact IH|].
      eapply Permutation_Forall; [apply sort_insert_perm|].
      constructor; [unfold descending; lia | exact Hy].
Qed.

Lemma Array_sort_sorted (l : list A) :
  StronglySorted (descending key) (Array_sort cmp l).
Proof.
  induction l as [|x r IH]; simpl; [constructor|].
  now apply sort_insert_sorted.
Qed.

End Sorting.

Lemma StronglySorted_suffix {A : Type} (R : A -> A -> Prop) (l1 l2 : list A) :
  StronglySorted R (l1 ++ l2) -> StronglySorted R l2.
Proof.
  induction l1 as [|x r IH]; simpl; [trivial|].
  intros H. apply StronglySorted_inv in H as [H _]. auto.
Qed.

Lemma sorted_precedes {A : Type} (key : A -> Z) (l : list A) (a b : A) :
  StronglySorted (descending key) l ->
  In a l -> In b l -> (key b < key a)%Z -> precedes a b l.
Proof.
  intros Hs Ha Hb Hlt.
  apply in_split in Ha as (l1 & l2 & ->).
  apply in_app_or in Hb as [Hb | [Hb | Hb]].
  - exfalso. apply in_split in Hb as (m1 & m2 & ->).
    rewrite <- app_assoc in Hs. simpl in Hs.
    apply StronglySorted_suffix in Hs.
    apply StronglySorted_inv in Hs as [_ Hall].
    rewrite Forall_forall in Hall.
    specialize (Hall a). unfold descending in Hall.
    assert (In a (m2 ++ a :: l2)%list) as Hin
      by (apply in_or_app; right; now left).
    specialize (Hall Hin). lia.
  - subst. lia.
  - apply in_split in Hb as (m1 & m2 & ->).
    now exists l1, m1, m2.
Qed.

(** ** Store invariants of a computation *)

Section Keeps.

Context {S : Type} (P : S -> Prop).

Lemma keeps_ret {A : Type} (a : A) : keeps P (ret a).
Proof. intros s Hs. exact Hs. Qed.

Lemma keeps_throw {A : Type} (e : exn) : keeps P (@throw S A e).
Proof. intros s Hs. exact Hs. Qed.

Lemma keeps_bind {A B : Type} (m : M S A) (k : A -> M S B) :
  keeps P m -> (forall a, keeps P (k a)) -> keeps P (bind m k).
Proof.
  intros Hm Hk s Hs. unfold bind. specialize (Hm s Hs).
  destruct (m s) as [[a|e] s1]; simpl in *; [now apply Hk | exact Hm].
Qed.

Lemma keeps_try_catch {A : Type} (m : M S A) (h : exn -> M S A) :
  keeps P m -> (forall e, keeps P (h e)) -> keeps P (try_catch m h).
Proof.
  intros Hm Hh s Hs. unfold try_catch. specialize (Hm s Hs).
  destruct (m s) as [[a|e] s1]; simpl in *; [exact Hm | now apply Hh].
Qed.

Lemma keeps_forEach {A : Type} (xs : list A) (f : A -> M S unit) :
  (forall x, keeps P (f x)) -> keeps P (forEach xs f).
Proof.
  intros Hf. induction xs as [|x r IH]; simpl.
  - apply keeps_ret.
  - apply keeps_bind; auto.
Qed.

End Keeps.

(** ** Extractor *)

Lemma existsb_eqb_In (x : string) (l : list string) :
  existsb (String.eqb x) l = true <-> In x l.
Proof.
  rewrite existsb_exists. split.
  - intros (y & Hy & E). apply String.eqb_eq in E. now subst.
  - intros H. exists x. split; [exact H | apply String.eqb_refl].
Qed.

Lemma Set_add_NoDup (x : string) : keeps (@NoDup string) (Set_add x).
Proof.
  intros out Hout. unfold Set_add. simpl.
  destruct (existsb (String.eqb x) out) eqn:E; [exact Hout|].
  apply NoDup_app; [exact Hout | repeat constructor; intros [] | ].
  intros y Hy [<- | []].
  apply existsb_eqb_In in Hy. congruence.
Qed.

Create HintDb keeps.
#[local] Hint Resolve keeps_ret keeps_throw Set_add_NoDup : keeps.

Lemma scrape_URL_NoDup (URL_parse : string -> option URL) (s : string) :
  keeps (@NoDup string) (scrape_URL URL_parse s).
Proof.
  unfold scrape_URL, new_URL.
  apply keeps_bind.
  - destruct (URL_parse s); auto with keeps.
  - intros u. apply keeps_bind; [|intros _; apply keeps_bind].
    + apply keeps_forEach. intros k.
      destruct (searchParams_get k (searchParams u)) as [v|]; auto with keeps.
      destruct (Str.is_empty v); auto with keeps.
    + destruct (Str.pop _) as [last|]; auto with keeps.
      destruct (Str.class_run _ _ _ last); auto with keeps.
    + intros _. destruct (frag_match _); auto with keeps.
Qed.

(** The shape of every result: the sorted contents of a duplicate-free
    store. *)
Lemma extractCandidates_shape (URL_parse : string -> option URL)
    (raw : option string) :
  exists out,
    NoDup out
    /\ extractCandidates URL_parse raw = Normal (Array_sort comparator out).
Proof.
  unfold extractCandidates.
  destruct raw as [r|]; [|exists []; split; [constructor | reflexivity]].
  destruct (Str.is_empty r); [exists []; split; [constructor | reflexivity]|].
  destruct (isURL (Str.trim r)).
  - pose proof (scrape_URL_NoDup URL_parse (Str.trim r) [] (NoDup_nil _)) as H.
    unfold try_catch.
    destruct (scrape_URL URL_parse (Str.trim r) []) as [[a|e] out];
      simpl in *; exists out; split; auto.
  - pose proof (Set_add_NoDup (Str.trim r) [] (NoDup_nil _)) as H.
    destruct (Set_add (Str.trim r) []) as [[a|e] out] eqn:E;
      simpl in *; [exists out; split; auto|].
    unfold Set_add in E. discriminate.
Qed.

(** C10. Every string that [isModel] accepts is accepted by [isSKU] (six to
    eight digits are at least five characters of the SKU class), so the
    comparator's [score] never takes the value 1: no candidate is ranked in
    the Model tier. *)
Theorem isModel_isSKU_score_never_1 (s : string) :
  (isModel s = true -> isSKU s = true) /\ score s <> 1%Z.
Proof.
  split; [apply isModel_implies_isSKU|].
  unfold score. destruct (isEAN s); [discriminate|].
  destruct (isSKU s) eqn:Hsku; [discriminate|].
  destruct (isModel s) eqn:Hm; [|discriminate].
  apply isModel_implies_isSKU in Hm. congruence.
Qed.

Lemma isModel_isSKU_score_never_1_witness :
  isModel "640123" = true /\ isSKU "640123" = true /\ score "640123" <> 1%Z.
Proof.
  split; [reflexivity|].
  destruct (isModel_isSKU_score_never_1 "640123") as [H1 H2].
  split; [apply H1; reflexivity | exact H2].
Defined.

(** C5. [extractCandidates] returns normally on every input, and returns
    the empty array on [null] and on the empty string. *)
Theorem extractCandidates_total (URL_parse : string -> option URL)
    (raw : option string) :
  (exists l, extractCandidates URL_parse raw = Normal l)
  /\ extractCandidates URL_parse None = Normal []
  /\ extractCandidates URL_parse (Some EmptyString) = Normal [].
Proof.
  split; [|split; reflexivity].
  destruct (extractCandidates_shape URL_parse raw) as (out & _ & E).
  eauto.
Qed.

(** C7. The array returned by [extractCandidates] holds no string twice. *)
Theorem extractCandidates_NoDup (URL_parse : string -> option URL)
    (raw : option string) (l : list string) :
  extractCandidates URL_parse raw = Normal l -> NoDup l.
Proof.
  destruct (extractCandidates_shape URL_parse raw) as (out & Hnd & E).
  rewrite E. intros [= <-].
  eapply Permutation_NoDup; [|exact Hnd].
  apply (Array_sort_perm score).
Qed.

Lemma extractCandidates_NoDup_witness :
  extractCandidates URL_table
    (Some "https://shop.example/p/123?ean=3608459693135")
  = Normal ["3608459693135"; "123"]
  /\ NoDup ["3608459693135"; "123"].
Proof.
  split; [reflexivity|].
  apply (extractCandidates_NoDup URL_table
           (Some "https://shop.example/p/123?ean=3608459693135")).
  reflexivity.
Defined.

(** C6. The array returned by [extractCandidates] is in descending order of
    [score] (EAN 3, SKU 2, Model 1, otherwise 0); hence a candidate that is
    EAN-shaped comes before every candidate that is not. *)
Theorem extractCandidates_sorted (URL_parse : string -> option URL)
    (raw : option string) (l : list string) :
  extractCandidates URL_parse raw = Normal l ->
  StronglySorted (fun a b => (score b <= score a)%Z) l
  /\ forall a b, In a l -> In b l ->
       isEAN a = true -> isEAN b = false -> precedes a b l.
Proof.
  destruct (extractCandidates_shape URL_parse raw) as (out & _ & E).
  rewrite E. intros [= <-].
  pose proof (Array_sort_sorted score out) as Hs.
  split; [exact Hs|].
  intros a b Ha Hb Ea Eb.
  apply (sorted_precedes score); auto.
  apply score_EAN in Ea.
  assert (score b <> 3%Z) by (rewrite <- score_EAN; congruence).
  pose proof (score_range b). lia.
Qed.

Lemma extractCandidates_sorted_witness :
  extractCandidates URL_table
    (Some "https://shop.example/p/123?ean=3608459693135")
  = Normal ["3608459693135"; "123"]
  /\ precedes "3608459693135" "123" ["3608459693135"; "123"].
Proof.
  split; [reflexivity|].
  apply (extractCandidates_sorted URL_table
           (Some "https://shop.example/p/123?ean=3608459693135")
           ["3608459693135"; "123"] eq_refl);
    simpl; auto.
Defined.

(** C1 (the code at the failing input). When [new URL] throws on a
    URL-shaped input, the [catch] block adds nothing and the result is the
    empty array: the trimmed input is not among the candidates. *)
Theorem extractCandidates_malformed_URL (URL_parse : string -> option URL)
    (r : string) :
  Str.is_empty r = false ->
  isURL (Str.trim r) = true ->
  URL_parse (Str.trim r) = None ->
  extractCandidates URL_parse (Some r) = Normal [].
Proof.
  intros Hr Hu Hp. unfold extractCandidates. rewrite Hr, Hu.
  unfold try_catch, scrape_URL, new_URL, bind, throw. rewrite Hp.
  reflexivity.
Qed.

Lemma extractCandidates_malformed_URL_witness :
  extractCandidates URL_table (Some "https://") = Normal [].
Proof.
  apply extractCandidates_malformed_URL; reflexivity.
Defined.

(** C2 (the code at the failing inputs). The tests [!raw] and [if (v)]
    come before the [trim]: an input of spaces, and a query value of
    spaces, each give the empty string as a candidate. *)
Theorem extractCandidates_blank_candidate :
  (forall URL_parse, extractCandidates URL_parse (Some "   ") = Normal [EmptyString])
  /\ extractCandidates URL_table
       (Some "https://decathlon.re/p?sku=%20#Code=AB-1/x")
     = Normal [EmptyString; "p"; "AB-1"].
Proof. split; reflexivity. Qed.

(** ** Gateway and cascade *)

(** The source tag of a match is the one asked for, and plays no part in
    whether there is a match. *)
Lemma reply_result_retag (q : QueryDoc) (s1 s2 : string) (j : Reply) :
  reply_result q s1 j
  = match reply_result q s2 j with
    | Normal (Some r) =>
        Normal (Some {| handle := handle r; variantId := variantId r;
                        source := s1 |})
    | Normal None => Normal None
    | Throw e => Throw e
    end.
Proof.
  unfold reply_result, match_in, first_variant, first_product,
    variant_result, product_result.
  destruct j as [reason| |errors d]; try reflexivity.
  destruct (truthy errors); [reflexivity|].
  destruct q, d as [d|]; try reflexivity.
  - destruct (productVariants d) as [edges|]; [|reflexivity].
    destruct (first_node edges) as [v|]; [|reflexivity].
    destruct (variant_product v) as [p|]; [|reflexivity].
    destruct (product_handle p) as [h|]; [|reflexivity].
    destruct (Str.is_empty h); reflexivity.
  - destruct (products d) as [edges|]; [|reflexivity].
    destruct (first_node edges) as [p|]; [|reflexivity].
    destruct (node_handle p) as [h|]; [|reflexivity].
    destruct (Str.is_empty h); [reflexivity|].
    destruct (node_variants p); reflexivity.
Qed.

Lemma reply_result_match (q : QueryDoc) (src : string) (j : Reply)
    (r : Result) :
  reply_result q src j = Normal (Some r) ->
  source r = src /\ Str.is_empty (handle r) = false
  /\ reply_matches q j = true /\ reply_raises j = false.
Proof.
  intros H. unfold reply_matches.
  rewrite (reply_result_retag q EmptyString src), H.
  split; [|split; [|split; [reflexivity|]]];
    revert H; unfold reply_result, reply_raises, match_in, first_variant,
      first_product, variant_result, product_result;
    destruct j as [reason| |errors d]; try discriminate;
    destruct (truthy errors); try discriminate; try reflexivity;
    destruct q, d as [d|]; try discriminate.
  - destruct (productVariants d) as [edges|]; [|discriminate].
    destruct (first_node edges) as [v|]; [|discriminate].
    destruct (variant_product v) as [p|]; [|discriminate].
    destruct (product_handle p) as [h|]; [|discriminate].
    destruct (Str.is_empty h); [discriminate|]. now intros [= <-].
  - destruct (products d) as [edges|]; [|discriminate].
    destruct (first_node edges) as [p|]; [|discriminate].
    destruct (node_handle p) as [h|]; [|discriminate].
    destruct (Str.is_empty h); [discriminate|].
    destruct (node_variants p); [|discriminate]. now intros [= <-].
  - destruct (productVariants d) as [edges|]; [|discriminate].
    destruct (first_node edges) as [v|]; [|discriminate].
    destruct (variant_product v) as [p|]; [|discriminate].
    destruct (product_handle p) as [h|]; [|discriminate].
    destruct (Str.is_empty h) eqn:E; [discriminate|]. now intros [= <-].
  - destruct (products d) as [edges|]; [|discriminate].
    destruct (first_node edges) as [p|]; [|discriminate].
    destruct (node_handle p) as [h|]; [|discriminate].
    destruct (Str.is_empty h) eqn:E; [discriminate|].
    destruct (node_variants p); [|discriminate]. now intros [= <-].
Qed.

(** A reply that makes a call return without a match is quiet. *)
Lemma reply_result_quiet (req : Request) (src : string) (j : Reply) :
  reply_result (query req) src j = Normal None -> call_quiet (req, j).
Proof.
  intros H. unfold call_quiet, call_raised, call_matched, call_broke,
    reply_matches, reply_breaks. cbn [fst snd].
  rewrite (reply_result_retag (query req) EmptyString src), H.
  rewrite andb_false_r. repeat split.
  revert H. unfold reply_result, reply_raises.
  destruct j as [reason| |errors d]; try discriminate.
  destruct (truthy errors); [discriminate | reflexivity].
Qed.

(** A reply that makes a call throw raised, or broke while being read. *)
Lemma reply_result_throw (req : Request) (src : string) (j : Reply)
    (e : exn) :
  reply_result (query req) src j = Throw e ->
  call_matched (req, j) = false
  /\ (call_raised (req, j) = true \/ call_broke (req, j) = true).
Proof.
  intros H. unfold call_raised, call_matched, call_broke,
    reply_matches, reply_breaks. cbn [fst snd].
  rewrite (reply_result_retag (query req) EmptyString src), H.
  split; [reflexivity|].
  destruct (reply_raises j); [now left | now right].
Qed.

Section GatewayFacts.

Variable upstream : Trace -> Request -> Reply.

(** One lookup of variants, from the call to the test of the handle. *)
Lemma variant_attempt_run (v src : string) (t : Trace) :
  (d <- adminGQL upstream Q_VARIANT_BY_QUERY v ;;
   x <- lift (first_variant d) ;;
   ret (variant_result x src)) t
  = (reply_result Q_VARIANT_BY_QUERY src
       (upstream t {| query := Q_VARIANT_BY_QUERY; variables := v |}),
     (t ++ [({| query := Q_VARIANT_BY_QUERY; variables := v |},
             upstream t {| query := Q_VARIANT_BY_QUERY; variables := v |})])
     %list).
Proof.
  unfold bind, adminGQL, lift, ret, reply_result, match_in.
  destruct (upstream t _) as [reason| |errors d]; try reflexivity.
  destruct (truthy errors); [reflexivity|].
  destruct (first_variant d); reflexivity.
Qed.

(** One lookup of products, from the call to the test of the handle. *)
Lemma product_attempt_run (v src : string) (t : Trace) :
  (d <- adminGQL upstream Q_PRODUCTS_BY_QUERY v ;;
   p <- lift (first_product d) ;;
   lift (product_result p src)) t
  = (reply_result Q_PRODUCTS_BY_QUERY src
       (upstream t {| query := Q_PRODUCTS_BY_QUERY; variables := v |}),
     (t ++ [({| query := Q_PRODUCTS_BY_QUERY; variables := v |},
             upstream t {| query := Q_PRODUCTS_BY_QUERY; variables := v |})])
     %list).
Proof.
  unfold bind, adminGQL, lift, ret, reply_result, match_in.
  destruct (upstream t _) as [reason| |errors d]; try reflexivity.
  destruct (truthy errors); [reflexivity|].
  destruct (first_product d); reflexivity.
Qed.

Lemma or_else_run {A : Type} (m k : M Trace (option A)) (t : Trace) :
  or_else m k t
  = match m t with
    | (Normal (Some r), t') => (Normal (Some r), t')
    | (Normal None, t') => k t'
    | (Throw e, t') => (Throw e, t')
    end.
Proof.
  unfold or_else, bind, ret. destruct (m t) as [[[r|]|e] t']; reflexivity.
Qed.

Lemma or_else_assoc {A : Type} (a b k : M Trace (option A)) (t : Trace) :
  or_else (or_else a b) k t = or_else a (or_else b k) t.
Proof.
  unfold or_else, bind, ret.
  destruct (a t) as [[[r|]|e] t1]; try reflexivity.
Qed.

(** The resolver runs the five strategies in the order of
    [cascade_order]. *)
Lemma or_else_skip {A : Type} (k : M Trace (option A)) (t : Trace) :
  or_else (ret None) k t = k t.
Proof. reflexivity. Qed.

Lemma resolve_as_cascade (code : string) (t : Trace) :
  resolveHandleFromCode upstream code t
  = run_cascade upstream cascade_order (Str.trim code) t.
Proof.
  unfold resolveHandleFromCode, cascade_order.
  cbn [run_cascade applies request_of source_of]. cbv zeta.
  cbn [query variables].
  destruct (isEAN (Str.trim code)), (isSKU (Str.trim code)),
    (isModel (Str.trim code));
    repeat (repeat (rewrite or_else_assoc || rewrite or_else_skip);
            first [ rewrite or_else_run;
                    first [rewrite variant_attempt_run
                          |rewrite product_attempt_run]
                  | rewrite product_attempt_run ];
            match goal with
            | |- context [match reply_result ?q ?s ?j with _ => _ end] =>
                destruct (reply_result q s j) as [[?|]|?]
            end;
            cbv beta iota; try reflexivity).
Qed.

(** The three ways a cascade ends, read off the calls it made. *)
Lemma run_cascade_outcome (c : string) (sts : list Strategy) (t : Trace) :
  exists new,
    snd (run_cascade upstream sts c t) = (t ++ new)%list
    /\ match fst (run_cascade upstream sts c t) with
       | Normal None =>
           map fst new = map (request_of c) (filter (applies c) sts)
           /\ Forall call_quiet new
       | Normal (Some res) =>
           exists pre j st,
             new = (pre ++ [(request_of c st, j)])%list
             /\ Forall call_quiet pre
             /\ reply_result (query (request_of c st)) (source_of st) j
                = Normal (Some res)
             /\ In st sts /\ applies c st = true
             /\ (exists n,
                   map fst new
                   = firstn n (map (request_of c) (filter (applies c) sts)))
       | Throw e =>
           exists pre req j,
             new = (pre ++ [(req, j)])%list
             /\ Forall call_quiet pre
             /\ reply_result (query req) EmptyString j = Throw e
             /\ (exists n,
                   map fst new
                   = firstn n (map (request_of c) (filter (applies c) sts)))
       end.
Proof.
  revert t. induction sts as [|st rest IH]; intros t.
  - exists []. cbn. rewrite app_nil_r. auto.
  - cbn [filter run_cascade].
    destruct (applies c st) eqn:Eap.
    2:{ destruct (IH t) as (new & Hsnd & Hout). exists new.
        split; [exact Hsnd|].
        destruct (fst (run_cascade upstream rest c t)) as [[res|]|e];
          [|exact Hout|exact Hout].
        destruct Hout as (pre & j & st' & H1 & H2 & H3 & H4 & H5).
        exists pre, j, st'. cbn [In]. tauto. }
    cbv zeta. cbn [map].
    set (req := request_of c st).
    destruct (reply_result (query req) (source_of st) (upstream t req))
      as [[r0|]|e] eqn:Er.
    + exists [(req, upstream t req)]. split; [reflexivity|].
      cbn [fst]. exists [], (upstream t req), st.
      split; [reflexivity|]. split; [constructor|].
      split; [exact Er|]. split; [now left|]. split; [exact Eap|].
      exists 1. reflexivity.
    + pose proof (reply_result_quiet _ _ _ Er) as Hq.
      destruct (IH (t ++ [(req, upstream t req)])%list)
        as (new & Hsnd & Hout).
      exists ((req, upstream t req) :: new).
      split; [rewrite Hsnd, <- app_assoc; reflexivity|].
      destruct (fst (run_cascade upstream rest c
                       (t ++ [(req, upstream t req)])%list))
        as [[res|]|e].
      * destruct Hout as (pre & j & st' & H1 & H2 & H3 & H4 & H5 & [n Hn]).
        exists ((req, upstream t req) :: pre), j, st'.
        subst new. cbn [In].
        repeat split; auto.
        exists (S n). cbn [map firstn fst]. now rewrite <- Hn.
      * destruct Hout as [H1 H2]. cbn [map fst]. rewrite H1. auto.
      * destruct Hout as (pre & rq & j & H1 & H2 & H3 & [n Hn]).
        exists ((req, upstream t req) :: pre), rq, j.
        subst new. repeat split; auto.
        exists (S n). cbn [map firstn fst]. now rewrite <- Hn.
    + exists [(req, upstream t req)]. split; [reflexivity|].
      cbn [fst]. exists [], req, (upstream t req).
      split; [reflexivity|]. split; [constructor|].
      split; [|exists 1; reflexivity].
      rewrite (reply_result_retag _ EmptyString (source_of st)), Er.
      reflexivity.
Qed.

End GatewayFacts.

(** ** The loop over the candidates *)

Section LoopFacts.

Variable upstream : Trace -> Request -> Reply.

Lemma Forall_quiet_last (pre : list (Request * Reply))
    (x : Request * Reply) :
  Forall call_quiet (pre ++ [x]) -> call_quiet x.
Proof.
  intros H. apply Forall_app in H as [_ H]. now inversion H.
Qed.

Lemma Exists_raised_last (pre : list (Request * Reply))
    (x : Request * Reply) :
  Forall call_quiet pre ->
  Exists (fun y => call_raised y = true) (pre ++ [x]) ->
  call_raised x = true.
Proof.
  intros Hq H. apply Exists_app in H as [H|H].
  - apply Exists_exists in H as (y & Hin & Hy).
    rewrite Forall_forall in Hq. destruct (Hq y Hin) as [Hr _]. congruence.
  - inversion H as [? ? H1|? ? H1]; [exact H1 | inversion H1].
Qed.

Lemma resolve_post (code : string) (t : Trace) :
  exists new,
    snd (resolveHandleFromCode upstream code t) = (t ++ new)%list
    /\ (exists n, map fst new = firstn n (planned (Str.trim code)))
    /\ (Exists (fun x => call_raised x = true) new ->
        exists e, fst (resolveHandleFromCode upstream code t) = Throw e)
    /\ (Forall call_quiet new ->
        fst (resolveHandleFromCode upstream code t) = Normal None)
    /\ (forall r,
          fst (resolveHandleFromCode upstream code t) = Normal (Some r) ->
          Str.is_empty (handle r) = false).
Proof.
  rewrite resolve_as_cascade.
  destruct (run_cascade_outcome upstream (Str.trim code) cascade_order t)
    as (new & Hsnd & Hout).
  exists new. split; [exact Hsnd|].
  destruct (fst (run_cascade upstream cascade_order (Str.trim code) t))
    as [[res|]|e].
  - destruct Hout as (pre & j & st & -> & Hq & Hres & _ & _ & Hn).
    destruct (reply_result_match _ _ _ _ Hres) as (_ & Hh & Hm & Hr).
    split; [exact Hn|]. split; [|split].
    + intros H. apply (Exists_raised_last _ _ Hq) in H.
      unfold call_raised in H. cbn [snd] in H. congruence.
    + intros H. apply Forall_quiet_last in H. destruct H as (_ & H & _).
      unfold call_matched in H. cbn [fst snd] in H. congruence.
    + intros r [= <-]. exact Hh.
  - destruct Hout as [Hmap Hq].
    split; [exists (List.length (planned (Str.trim code)));
            rewrite firstn_all; exact Hmap|].
    split; [|split; [reflexivity | discriminate]].
    intros H. apply Exists_exists in H as (y & Hin & Hy).
    rewrite Forall_forall in Hq. destruct (Hq y Hin) as [Hr _]. congruence.
  - destruct Hout as (pre & rq & j & -> & Hq & Hres & Hn).
    split; [exact Hn|]. split; [eauto|]. split; [|discriminate].
    intros H. apply Forall_quiet_last in H.
    destruct (reply_result_throw _ _ _ _ Hres) as [_ [Hr|Hb]];
      destruct H as (H1 & _ & H3); congruence.
Qed.

Lemma for_of_loop_step {R : Type} (wrap : Result -> R) (c : string)
    (rest : list string) (t : Trace) :
  for_of (c :: rest) (loop_body upstream wrap) t
  = match resolveHandleFromCode upstream c t with
    | (Normal (Some r), t1) =>
        if Str.is_empty (handle r) then
          for_of rest (loop_body upstream wrap) t1
        else (Normal (Some (wrap r)), t1)
    | (Normal None, t1) => for_of rest (loop_body upstream wrap) t1
    | (Throw e, t1) => (Throw e, t1)
    end.
Proof.
  cbn [for_of]. unfold loop_body at 1, bind, ret, has_handle.
  destruct (resolveHandleFromCode upstream c t) as [[[r|]|e] t1];
    try reflexivity.
  destruct (Str.is_empty (handle r)); reflexivity.
Qed.

(** Both routes run the same loop. *)
Lemma for_of_loop_map {R : Type} (wrap : Result -> R)
    (cands : list string) (t : Trace) :
  for_of cands (loop_body upstream wrap) t
  = (match fst (first_hit upstream cands t) with
     | Normal o => Normal (option_map wrap o)
     | Throw e => Throw e
     end,
     snd (first_hit upstream cands t)).
Proof.
  unfold first_hit. revert t.
  induction cands as [|c rest IH]; intros t; [reflexivity|].
  rewrite !for_of_loop_step.
  destruct (resolveHandleFromCode upstream c t) as [[[r|]|e] t1];
    try reflexivity; try apply IH.
  destruct (Str.is_empty (handle r)); [apply IH | reflexivity].
Qed.

Lemma first_hit_post (cands : list string) (t : Trace) :
  exists new,
    snd (first_hit upstream cands t) = (t ++ new)%list
    /\ (Exists (fun x => call_raised x = true) new ->
        exists e, fst (first_hit upstream cands t) = Throw e)
    /\ (Forall call_quiet new ->
        fst (first_hit upstream cands t) = Normal None).
Proof.
  unfold first_hit. revert t.
  induction cands as [|c rest IH]; intros t.
  - exists []. cbn. rewrite app_nil_r. repeat split.
    intros H. inversion H.
  - rewrite for_of_loop_step.
    destruct (resolve_post c t) as (n1 & Hsnd & _ & Hthrow & Hquiet & Hh).
    destruct (resolveHandleFromCode upstream c t) as [[[r|]|e] t1];
      cbn [fst snd] in *; subst t1.
    + rewrite (Hh r eq_refl).
      exists n1. cbn [fst snd]. repeat split.
      * intros H. destruct (Hthrow H) as [e He]. discriminate.
      * intros H. specialize (Hquiet H). discriminate.
    + destruct (IH (t ++ n1)%list) as (n2 & Hsnd2 & Hthrow2 & Hquiet2).
      exists (n1 ++ n2)%list.
      split; [rewrite Hsnd2; apply eq_sym, app_assoc|].
      split.
      * intros H. apply Exists_app in H as [H|H]; [|auto].
        destruct (Hthrow H) as [e He]. discriminate.
      * intros Hall. apply Forall_app in Hall as [_ Hall]. auto.
    + exists n1. cbn [fst snd]. repeat split.
      * intros _. eauto.
      * intros H. specialize (Hquiet H). discriminate.
  Qed.

End LoopFacts.

(** ** The routes *)

Section RouteFacts.

Variable URL_parse : string -> option URL.
Variable upstream : Trace -> Request -> Reply.

(** [/scan-lookup] on a truthy [raw], by the outcome of the loop. *)
Lemma scan_lookup_run (r : string) (cands : list string) (t : Trace) :
  Str.is_empty r = false ->
  extractCandidates URL_parse (Some r) = Normal cands ->
  scan_lookup URL_parse upstream (Some r) t
  = (Normal
       match fst (first_hit upstream cands t) with
       | Normal (Some res) =>
           Json 200
             (ResultBody (Some (handle res)) (variantId res) (source res)
                (product_url res) cands)
       | Normal None =>
           Json 200
             (ResultBody None None "fallback:search" (search_url r) cands)
       | Throw _ => Json 500 (ErrorBody "lookup_failed")
       end,
     snd (first_hit upstream cands t)).
Proof.
  intros Hr Hc. unfold scan_lookup. rewrite Hr, Hc.
  unfold try_catch, bind at 1, lift.
  pose proof (for_of_loop_map upstream
    (fun res => Json 200
       (ResultBody (Some (handle res)) (variantId res) (source res)
          (product_url res) cands)) cands t) as H.
  unfold loop_body at 1 in H. unfold bind at 1. rewrite H.
  destruct (fst (first_hit upstream cands t)) as [[res|]|e]; reflexivity.
Qed.

(** [/r] on a truthy [raw], by the outcome of the loop. *)
Lemma r_redirect_run (r : string) (cands : list string) (t : Trace) :
  Str.is_empty r = false ->
  extractCandidates URL_parse (Some r) = Normal cands ->
  r_redirect URL_parse upstream (Some r) t
  = (Normal
       match fst (first_hit upstream cands t) with
       | Normal (Some res) => Redirect 302 (product_url res)
       | Normal None => Redirect 302 (search_url r)
       | Throw _ => Redirect 302 (search_url r)
       end,
     snd (first_hit upstream cands t)).
Proof.
  intros Hr Hc. unfold r_redirect. rewrite Hr, Hc.
  unfold try_catch, bind at 1, lift.
  pose proof (for_of_loop_map upstream
    (fun res => Redirect 302 (product_url res)) cands t) as H.
  unfold loop_body at 1 in H. unfold bind at 1. rewrite H.
  destruct (fst (first_hit upstream cands t)) as [[res|]|e]; reflexivity.
Qed.

End RouteFacts.

(** ** Trailing segment of an identifier *)

Lemma pop_None (l : list string) : Str.pop l = None -> l = [].
Proof.
  induction l as [|x r IH]; [reflexivity|].
  cbn [Str.pop]. destruct r; [discriminate|].
  intros H. apply IH in H. discriminate.
Qed.

Lemma pop_cons (h : string) (t : list string) :
  Str.pop (h :: t) = match Str.pop t with Some x => Some x | None => Some h end.
Proof.
  cbn [Str.pop]. destruct t as [|h2 t2]; [reflexivity|].
  destruct (Str.pop (h2 :: t2)) eqn:E; [reflexivity|].
  apply pop_None in E. discriminate.
Qed.

Lemma split_trailing (sep : ascii) (s : string) :
  match Str.split sep s with
  | [] => False
  | h :: t =>
      Str.all_chars (fun c => negb (Ascii.eqb c sep)) h = true
      /\ match Str.pop t with
         | None => s = h
         | Some seg =>
             Str.all_chars (fun c => negb (Ascii.eqb c sep)) seg = true
             /\ exists p, s = p ++ String sep seg
         end
  end.
Proof.
  induction s as [|c r IH]; cbn [Str.split].
  - split; reflexivity.
  - destruct (Str.split sep r) as [|h t]; [contradiction|].
    destruct IH as [Hh Ht].
    destruct (Ascii.eqb c sep) eqn:E.
    + apply Ascii.eqb_eq in E. subst c.
      split; [reflexivity|]. rewrite pop_cons.
      destruct (Str.pop t) as [seg|].
      * destruct Ht as [Hs [p ->]]. split; [exact Hs|].
        now exists (String sep p).
      * subst r. split; [exact Hh|]. now exists EmptyString.
    + split; [cbn [Str.all_chars]; rewrite E; exact Hh|].
      destruct (Str.pop t) as [seg|].
      * destruct Ht as [Hs [p ->]]. split; [exact Hs|].
        now exists (String c p).
      * now subst r.
Qed.

(** The last element of [id.split(sep)] holds no separator, and is what
    follows the last separator of [id], or [id] itself. *)
Lemma pop_split (sep : ascii) (id : string) :
  exists seg,
    Str.pop (Str.split sep id) = Some seg
    /\ Str.all_chars (fun c => negb (Ascii.eqb c sep)) seg = true
    /\ (id = seg \/ exists p, id = p ++ String sep seg).
Proof.
  pose proof (split_trailing sep id) as H.
  destruct (Str.split sep id) as [|h t]; [contradiction|].
  destruct H as [Hh Ht]. rewrite pop_cons.
  destruct (Str.pop t) as [seg|].
  - exists seg. destruct Ht as [Hs Hp]. auto.
  - exists h. auto.
Qed.

(** ** Claims on the resolver and the routes *)

(** C3 (as stated, refuted). With no gateway call returning a match, the
    JSON route does not always answer with the fallback: an empty [raw]
    gets status 400 without any call; a call that raises gets status 500;
    and so does a call that returns a body without [data]. *)
Lemma scan_lookup_not_always_fallback :
  (scan_lookup URL_table catalog_empty (Some EmptyString) []
   = (Normal (Json 400 (ErrorBody "Missing raw param")), []))
  /\ (fst (scan_lookup URL_table catalog_down (Some "6401234") [])
      = Normal (Json 500 (ErrorBody "lookup_failed"))
      /\ Forall (fun x => call_matched x = false)
           (snd (scan_lookup URL_table catalog_down (Some "6401234") [])))
  /\ (fst (scan_lookup URL_table catalog_no_data (Some "6401234") [])
      = Normal (Json 500 (ErrorBody "lookup_failed"))
      /\ Forall (fun x => call_raised x = false /\ call_matched x = false)
           (snd (scan_lookup URL_table catalog_no_data (Some "6401234") []))).
Proof.
  split; [reflexivity|]. split; (split; [reflexivity|]); repeat constructor.
Qed.

(** C3 (amended). For every non-empty [raw], when every gateway call made
    by the JSON route is quiet (it returns, the data of its reply has the
    connection the query asks for, and it holds no match), the answer has
    [handle: null], source ["fallback:search"], the candidates in order
    as [tried], and the search URL of the trimmed and URL-encoded [raw],
    which is not empty. *)
Theorem scan_lookup_fallback (URL_parse : string -> option URL)
    (upstream : Trace -> Request -> Reply) (r : string) (t new : Trace) :
  Str.is_empty r = false ->
  snd (scan_lookup URL_parse upstream (Some r) t) = (t ++ new)%list ->
  Forall call_quiet new ->
  exists tried url,
    extractCandidates URL_parse (Some r) = Normal tried
    /\ url = "https://decathlon.re/search?q="
             ++ Str.encodeURIComponent (Str.trim r)
    /\ url <> EmptyString
    /\ fst (scan_lookup URL_parse upstream (Some r) t)
       = Normal (Json 200 (ResultBody None None "fallback:search" url tried)).
Proof.
  intros Hr Hsnd Hall.
  destruct (extractCandidates_shape URL_parse (Some r)) as (out & _ & Hc).
  exists (Array_sort comparator out), (search_url r).
  split; [exact Hc|]. split; [reflexivity|]. split; [discriminate|].
  rewrite (scan_lookup_run _ _ _ _ _ Hr Hc) in *. cbn [fst snd] in *.
  destruct (first_hit_post upstream (Array_sort comparator out) t)
    as (new0 & Hsnd0 & _ & Hquiet).
  rewrite Hsnd0 in Hsnd. apply app_inv_head in Hsnd. subst new0.
  now rewrite (Hquiet Hall).
Qed.

Lemma scan_lookup_fallback_witness :
  fst (scan_lookup URL_table catalog_empty (Some "6401234 ") [])
  = Normal (Json 200
      (ResultBody None None "fallback:search"
         "https://decathlon.re/search?q=6401234" ["6401234"])).
Proof.
  destruct (scan_lookup_fallback URL_table catalog_empty "6401234 " []
              (snd (scan_lookup URL_table catalog_empty (Some "6401234 ") []))
              eq_refl eq_refl)
    as (tried & url & Ht & Hu & _ & H).
  - repeat constructor.
  - rewrite H. injection Ht as <-. subst url. reflexivity.
Defined.





Lemma route_trace (URL_parse : string -> option URL)
    (upstream : Trace -> Request -> Reply) (raw : option string)
    (t new : Trace) :
  snd (scan_lookup URL_parse upstream raw t) = (t ++ new)%list
  \/ snd (r_redirect URL_parse upstream raw t) = (t ++ new)%list ->
  Exists (fun x => call_raised x = true) new ->
  exists r cands,
    raw = Some r /\ Str.is_empty r = false
    /\ extractCandidates URL_parse raw = Normal cands
    /\ exists e, fst (first_hit upstream cands t) = Throw e.
Proof.
  intros Hsnd Hex.
  assert (Hne : new <> []) by (intros ->; inversion Hex).
  assert (Hstill : forall (x : Trace), x = (x ++ new)%list -> False).
  { intros x Hx. rewrite <- (app_nil_r x) in Hx at 1.
    apply app_inv_head in Hx. congruence. }
  destruct raw as [r|];
    [|exfalso; destruct Hsnd as [H|H]; exact (Hstill _ H)].
  destruct (Str.is_empty r) eqn:Hr.
  { exfalso. unfold scan_lookup, r_redirect in Hsnd. rewrite Hr in Hsnd.
    destruct Hsnd as [H|H]; exact (Hstill _ H). }
  destruct (extractCandidates_shape URL_parse (Some r)) as (out & _ & Hc).
  exists r, (Array_sort comparator out).
  repeat split; auto.
  rewrite (scan_lookup_run _ _ _ _ _ Hr Hc) in Hsnd.
  rewrite (r_redirect_run _ _ _ _ _ Hr Hc) in Hsnd. cbn [snd] in Hsnd.
  destruct (first_hit_post upstream (Array_sort comparator out) t)
    as (new0 & Hsnd0 & Hthrow & _).
  rewrite Hsnd0 in Hsnd.
  assert (new0 = new) by (destruct Hsnd as [H|H]; now apply app_inv_head in H).
  subst new0. now apply Hthrow.
Qed.

(** C8 (as stated, refuted). An envelope that contains an [errors] field
    does not make the gateway call raise when the field is falsy: with
    [errors: null] beside the data the call returns the data. *)
Lemma gateway_null_errors_returns :
  catalog_null_errors []
    {| query := Q_PRODUCTS_BY_QUERY; variables := "6401234" |}
  = Envelope (Some JNull) (Some no_data)
  /\ fst (adminGQL catalog_null_errors Q_PRODUCTS_BY_QUERY "6401234" [])
     = Normal (Some no_data).
Proof. split; reflexivity. Qed.

(** C8 (amended). A gateway call raises exactly when the transport fails,
    the body is [null], or the envelope's [errors] field is truthy.  When
    a call made for a request raises, the JSON route answers 500 with
    [lookup_failed], and the redirect route answers with a redirect to
    the search URL of [raw]. *)
Theorem gateway_failure (URL_parse : string -> option URL)
    (upstream : Trace -> Request -> Reply) :
  (forall q v t,
     (exists e, fst (adminGQL upstream q v t) = Throw e)
     <-> ((exists reason,
             upstream t {| query := q; variables := v |}
             = TransportFailure reason)
          \/ upstream t {| query := q; variables := v |} = NullBody
          \/ (exists errors data,
                upstream t {| query := q; variables := v |}
                = Envelope errors data
                /\ truthy errors = true)))
  /\ (forall raw t new,
        snd (scan_lookup URL_parse upstream raw t) = (t ++ new)%list ->
        Exists (fun x => call_raised x = true) new ->
        fst (scan_lookup URL_parse upstream raw t)
        = Normal (Json 500 (ErrorBody "lookup_failed")))
  /\ (forall raw t new,
        snd (r_redirect URL_parse upstream raw t) = (t ++ new)%list ->
        Exists (fun x => call_raised x = true) new ->
        exists r,
          raw = Some r
          /\ fst (r_redirect URL_parse upstream raw t)
             = Normal (Redirect 302
                 ("https://decathlon.re/search?q="
                  ++ Str.encodeURIComponent (Str.trim r)))).
Proof.
  split; [|split].
  - intros q v t. unfold adminGQL.
    destruct (upstream t _) as [reason| |errors d]; cbn [fst]; split.
    + intros _. left. eauto.
    + intros _. eauto.
    + intros _. right; left. reflexivity.
    + intros _. eauto.
    + destruct (truthy errors) eqn:E; cbn [fst].
      * intros _. right; right. eauto.
      * intros [e H]. discriminate.
    + intros [[reason H]|[H|(errors' & data & [= <- <-] & H)]];
        try discriminate.
      rewrite H. cbn [fst]. eauto.
  - intros raw t new Hsnd Hex.
    destruct (route_trace URL_parse upstream raw t new (or_introl Hsnd) Hex)
      as (r & cands & -> & Hr & Hc & e & He).
    rewrite (scan_lookup_run _ _ _ _ _ Hr Hc). cbn [fst]. now rewrite He.
  - intros raw t new Hsnd Hex.
    destruct (route_trace URL_parse upstream raw t new (or_intror Hsnd) Hex)
      as (r & cands & -> & Hr & Hc & e & He).
    exists r. split; [reflexivity|].
    rewrite (r_redirect_run _ _ _ _ _ Hr Hc). cbn [fst]. now rewrite He.
Qed.

Lemma gateway_failure_witness :
  fst (scan_lookup URL_table catalog_down (Some "6401 234 ") [])
  = Normal (Json 500 (ErrorBody "lookup_failed"))
  /\ fst (r_redirect URL_table catalog_down (Some "6401 234 ") [])
     = Normal (Redirect 302 "https://decathlon.re/search?q=6401%20234").
Proof.
  destruct (gateway_failure URL_table catalog_down) as (_ & Hjson & Hred).
  split.
  - apply (Hjson (Some "6401 234 ") []
             (snd (scan_lookup URL_table catalog_down (Some "6401 234 ") []))
             eq_refl).
    constructor. reflexivity.
  - destruct (Hred (Some "6401 234 ") []
                (snd (r_redirect URL_table catalog_down (Some "6401 234 ") []))
                eq_refl) as (r & Hr & H).
    + constructor. reflexivity.
    + injection Hr as <-. exact H.
Defined.

(** C9 (as stated, refuted). A product found without a variant resolves
    successfully, and its URL has no [?variant=] part. *)
Lemma product_url_without_variant :
  fst (scan_lookup URL_table catalog_sample (Some " KIT-1") [])
  = Normal (Json 200
      (ResultBody (Some "kit") None "search:any"
         "https://decathlon.re/products/kit" ["KIT-1"]))
  /\ fst (r_redirect URL_table catalog_sample (Some " KIT-1") [])
     = Normal (Redirect 302 "https://decathlon.re/products/kit")
  /\ forall short,
       "https://decathlon.re/products/kit"
       <> "https://decathlon.re/products/" ++ "kit" ++ "?variant=" ++ short.
Proof.
  split; [reflexivity|]. split; [reflexivity|].
  intros short H. cbn in H. discriminate H.
Qed.

(** C9 (amended). For every successful resolution, both routes give the
    same URL.  When the match carries a variant identifier whose last
    [/]-delimited segment is not empty, the URL is
    [https://decathlon.re/products/<handle>?variant=<segment>]; when the
    identifier is missing or that segment is empty, it is
    [https://decathlon.re/products/<handle>]. *)
Theorem product_url_of_match (URL_parse : string -> option URL)
    (upstream : Trace -> Request -> Reply) (raw : option string) (t : Trace)
    (h : string) (vid : option string) (src url : string)
    (tried : list string) :
  fst (scan_lookup URL_parse upstream raw t)
  = Normal (Json 200 (ResultBody (Some h) vid src url tried)) ->
  fst (r_redirect URL_parse upstream raw t) = Normal (Redirect 302 url)
  /\ match vid with
     | Some id =>
         exists seg,
           (id = seg \/ exists p, id = p ++ "/" ++ seg)
           /\ Str.all_chars (fun c => negb (Ascii.eqb c "/")) seg = true
           /\ url = if Str.is_empty seg
                    then "https://decathlon.re/products/" ++ h
                    else "https://decathlon.re/products/" ++ h
                         ++ "?variant=" ++ seg
     | None => url = "https://decathlon.re/products/" ++ h
     end.
Proof.
  intros H.
  destruct raw as [r|]; [|discriminate H].
  destruct (Str.is_empty r) eqn:Hr;
    [unfold scan_lookup in H; rewrite Hr in H; discriminate H|].
  destruct (extractCandidates_shape URL_parse (Some r)) as (out & _ & Hc).
  rewrite (scan_lookup_run _ _ _ _ _ Hr Hc) in H.
  rewrite (r_redirect_run _ _ _ _ _ Hr Hc). cbn [fst] in *.
  destruct (fst (first_hit upstream (Array_sort comparator out) t))
    as [[res|]|e]; try discriminate H.
  injection H as <- <- _ <- _. split; [reflexivity|].
  unfold product_url, variantIdShort.
  destruct (variantId res) as [id|]; [|reflexivity].
  destruct (pop_split "/" id) as (seg & -> & Hseg & Hid).
  exists seg. repeat split; auto.
Qed.

Lemma product_url_of_match_witness :
  fst (scan_lookup URL_table catalog_sample
         (Some "https://decathlon.re/p/3608459693135") [])
  = Normal (Json 200
      (ResultBody (Some "some-product")
         (Some "gid://shopify/ProductVariant/12345") "barcode"
         "https://decathlon.re/products/some-product?variant=12345"
         ["3608459693135"]))
  /\ fst (r_redirect URL_table catalog_sample
            (Some "https://decathlon.re/p/3608459693135") [])
     = Normal (Redirect 302
         "https://decathlon.re/products/some-product?variant=12345").
Proof.
  split; [reflexivity|].
  apply (product_url_of_match URL_table catalog_sample
           (Some "https://decathlon.re/p/3608459693135") []
           "some-product" (Some "gid://shopify/ProductVariant/12345")
           "barcode"
           "https://decathlon.re/products/some-product?variant=12345"
           ["3608459693135"] eq_refl).
Defined.

(** * Further properties of the code *)

(** ** Classifier *)

Lemma is_code_char_lower (c : ascii) :
  Str.is_code_char (Str.lower c) = Str.is_code_char c.
Proof.
  destruct c as [[] [] [] [] [] [] [] []]; vm_compute; reflexivity.
Qed.

Lemma strip_prefix_ci_code_chars (p t r : string) :
  Str.strip_prefix_ci p t = Some r ->
  Str.all_chars Str.is_code_char t = true ->
  Str.all_chars Str.is_code_char p = true.
Proof.
  revert t. induction p as [|a p IH]; intros t; [reflexivity|].
  destruct t as [|b t]; cbn [Str.strip_prefix_ci Str.all_chars];
    [discriminate|].
  destruct (Ascii.eqb (Str.lower a) (Str.lower b)) eqn:E; [|discriminate].
  apply Ascii.eqb_eq in E. intros Hp Hall.
  apply andb_true_iff in Hall as [Hb Ht].
  rewrite (IH _ Hp Ht), andb_true_r.
  rewrite <- is_code_char_lower, E, is_code_char_lower. exact Hb.
Qed.

Lemma isEAN_implies_isSKU (s : string) : isEAN s = true -> isSKU s = true.
Proof.
  unfold isEAN, isSKU, Str.class_run. intros H.
  apply orb_true_iff in H as [H|H];
    apply andb_true_iff in H as [H _];
    apply andb_true_iff in H as [Hd Hlen];
    rewrite (all_chars_impl _ _ _ digit_is_code_char Hd);
    apply Nat.leb_le in Hlen;
    rewrite andb_true_r; apply Nat.leb_le; lia.
Qed.

(** X1. An EAN-shaped string is SKU-shaped too, so the comparator's score
    is 3 on EAN-shaped strings, 2 on the other SKU-shaped strings and 0 on
    every string that is not SKU-shaped. *)
Theorem score_by_shape (s : string) :
  (isEAN s = true -> isSKU s = true)
  /\ (score s = 3%Z <-> isEAN s = true)
  /\ (score s = 2%Z <-> isSKU s = true /\ isEAN s = false)
  /\ (score s = 0%Z <-> isSKU s = false).
Proof.
  split; [apply isEAN_implies_isSKU|].
  pose proof (isEAN_implies_isSKU s) as He.
  pose proof (isModel_implies_isSKU s) as Hm.
  unfold score.
  destruct (isEAN s), (isSKU s), (isModel s);
    repeat split; intros; try discriminate; try reflexivity;
    try (specialize (He eq_refl); discriminate);
    try (specialize (Hm eq_refl); discriminate);
    try (destruct H; discriminate).
Qed.

Lemma score_by_shape_witness :
  isEAN "12345678" = true /\ isSKU "12345678" = true
  /\ score "12345678" = 3%Z.
Proof.
  destruct (score_by_shape "12345678") as (H1 & H2 & _).
  split; [reflexivity|]. split; [apply H1; reflexivity|].
  apply H2. reflexivity.
Defined.

(** X2. A URL-shaped string is never SKU-, EAN- or Model-shaped: the
    colon of its scheme is outside the SKU class. *)
Theorem isURL_not_a_code (s : string) :
  isURL s = true ->
  isSKU s = false /\ isEAN s = false /\ isModel s = false.
Proof.
  intros Hu.
  assert (Hs : isSKU s = false).
  { unfold isSKU, Str.class_run.
    destruct (Str.all_chars Str.is_code_char (Str.trim s)) eqn:Hall;
      [|reflexivity].
    exfalso. unfold isURL in Hu.
    destruct (Str.strip_prefix_ci "http://" (Str.trim s)) as [r|] eqn:E1.
    - pose proof (strip_prefix_ci_code_chars _ _ _ E1 Hall) as H.
      vm_compute in H. discriminate.
    - destruct (Str.strip_prefix_ci "https://" (Str.trim s)) as [r|] eqn:E2;
        [|discriminate].
      pose proof (strip_prefix_ci_code_chars _ _ _ E2 Hall) as H.
      vm_compute in H. discriminate. }
  split; [exact Hs|].
  split.
  - destruct (isEAN s) eqn:E; [|reflexivity].
    apply isEAN_implies_isSKU in E. congruence.
  - destruct (isModel s) eqn:E; [|reflexivity].
    apply isModel_implies_isSKU in E. congruence.
Qed.

Lemma isURL_not_a_code_witness :
  isURL "https://decathlon.re/p/3608459693135" = true
  /\ isSKU "https://decathlon.re/p/3608459693135" = false.
Proof.
  split; [reflexivity|].
  apply (isURL_not_a_code "https://decathlon.re/p/3608459693135").
  reflexivity.
Defined.

(** X3. The four predicates give the same answer on a string and on its
    trimmed form. *)
Theorem classifier_ignores_outer_space (s : string) :
  isEAN (Str.trim s) = isEAN s
  /\ isModel (Str.trim s) = isModel s
  /\ isSKU (Str.trim s) = isSKU s
  /\ isURL (Str.trim s) = isURL s.
Proof.
  unfold isEAN, isModel, isSKU, isURL. rewrite trim_idempotent. auto.
Qed.

(** ** Extractor *)

Lemma adds_ret {A : Type} (a : A) : adds (fun _ => False) (ret a).
Proof.
  intros s. split; [now exists a|]. intros c. cbn. tauto.
Qed.

Lemma adds_Set_add (x : string) : adds (fun c => c = x) (Set_add x).
Proof.
  intros s. split; [now exists tt|]. intros c. unfold Set_add. cbn [snd].
  destruct (existsb (String.eqb x) s) eqn:E.
  - apply existsb_eqb_In in E. split; [tauto|]. intros [H| ->]; auto.
  - rewrite in_app_iff. cbn [In]. split.
    + intros [H|[<-|[]]]; auto.
    + intros [H| ->]; auto.
Qed.

Lemma adds_bind {A B : Type} (P Q : string -> Prop) (m : M (list string) A)
    (k : A -> M (list string) B) :
  adds P m -> (forall a, adds Q (k a)) ->
  adds (fun c => P c \/ Q c) (bind m k).
Proof.
  intros Hm Hk s. destruct (Hm s) as [[a Ha] Hin]. unfold bind.
  destruct (m s) as [o s1]. cbn [fst snd] in *. subst o.
  destruct (Hk a s1) as [Hn Hin2]. split; [exact Hn|].
  intros c. rewrite Hin2, Hin. tauto.
Qed.

Lemma adds_ext {A : Type} (P Q : string -> Prop) (m : M (list string) A) :
  (forall c, P c <-> Q c) -> adds P m -> adds Q m.
Proof.
  intros Hpq Hm s. destruct (Hm s) as [Hn Hin]. split; [exact Hn|].
  intros c. rewrite Hin, Hpq. tauto.
Qed.

Lemma adds_forEach {A : Type} (P : A -> string -> Prop) (xs : list A)
    (f : A -> M (list string) unit) :
  (forall x, adds (P x) (f x)) ->
  adds (fun c => exists x, In x xs /\ P x c) (forEach xs f).
Proof.
  intros Hf. induction xs as [|x r IH]; cbn [forEach].
  - eapply adds_ext; [|apply adds_ret].
    intros c. split; [tauto|]. intros (x & [] & _).
  - eapply adds_ext; [|apply adds_bind; [apply Hf | intros _; exact IH]].
    intros c. cbn [In]. split.
    + intros [H|(y & Hy & H)]; eauto.
    + intros (y & [<-|Hy] & H); eauto.
Qed.

(** What the [try] block leaves in the set when the URL parses. *)
Lemma scrape_URL_members (URL_parse : string -> option URL) (s : string)
    (u : URL) :
  URL_parse s = Some u ->
  adds (fun c =>
          (exists k v,
             In k candKeys
             /\ searchParams_get k (searchParams u) = Some v
             /\ Str.is_empty v = false /\ c = Str.trim v)
          \/ (Str.pop (filter (fun x => negb (Str.is_empty x))
                         (Str.split "/" (pathname u))) = Some c
              /\ Str.class_run Str.is_code_char 1 None c = true)
          \/ frag_match (drop_hash (hash u)) = Some c)
       (scrape_URL URL_parse s).
Proof.
  intros Hp. unfold scrape_URL, new_URL. rewrite Hp.
  assert (Hb : forall (B : Type) (k : URL -> M (list string) B) st,
             bind (ret u) k st = k u st) by reflexivity.
  intros st. rewrite Hb. revert st.
  set (Pq := fun k c => exists v,
          searchParams_get k (searchParams u) = Some v
          /\ Str.is_empty v = false /\ c = Str.trim v).
  set (Pp := fun c =>
          Str.pop (filter (fun x => negb (Str.is_empty x))
                     (Str.split "/" (pathname u))) = Some c
          /\ Str.class_run Str.is_code_char 1 None c = true).
  set (Pf := fun c => frag_match (drop_hash (hash u)) = Some c).
  apply (adds_ext
           (fun c => (exists k, In k candKeys /\ Pq k c) \/ Pp c \/ Pf c)).
  { intros c. unfold Pq, Pp, Pf. split.
    - intros [(k & Hk & v & Hv & He & Hc)|H]; [left|right; exact H].
      exists k, v. auto.
    - intros [(k & v & Hk & Hv & He & Hc)|H]; [left|right; exact H].
      exists k. split; [exact Hk|]. exists v. auto. }
  apply adds_bind; [apply adds_forEach|intros _; apply adds_bind; [|intros _]];
    unfold Pq, Pp, Pf.
  - intros k. destruct (searchParams_get k (searchParams u)) as [v|].
    + destruct (Str.is_empty v) eqn:E.
      * eapply adds_ext; [|apply adds_ret].
        intros c. split; [tauto|]. intros (v' & [= <-] & He & _). congruence.
      * eapply adds_ext; [|apply adds_Set_add].
        intros c. split; [intros ->; eauto|].
        intros (v' & [= <-] & _ & Hc). exact Hc.
    + eapply adds_ext; [|apply adds_ret].
      intros c. split; [tauto|]. intros (v' & Hv & _). discriminate.
  - destruct (Str.pop _) as [last|].
    + destruct (Str.class_run Str.is_code_char 1 None last) eqn:E.
      * eapply adds_ext; [|apply adds_Set_add].
        intros c. split; [intros ->; auto|]. intros [[= <-] _]. reflexivity.
      * eapply adds_ext; [|apply adds_ret].
        intros c. split; [tauto|]. intros [[= <-] H]. congruence.
    + eapply adds_ext; [|apply adds_ret].
      intros c. split; [tauto|]. intros [H _]. discriminate.
  - destruct (frag_match _) as [v|].
    + eapply adds_ext; [|apply adds_Set_add].
      intros c. split; [intros ->; reflexivity|]. intros [= <-]. reflexivity.
    + eapply adds_ext; [|apply adds_ret].
      intros c. split; [tauto|]. discriminate.
Qed.

Lemma take_while_all_chars (p : ascii -> bool) (s : string) :
  Str.all_chars p (Str.take_while p s) = true.
Proof.
  induction s as [|c r IH]; cbn [Str.take_while]; [reflexivity|].
  destruct (p c) eqn:E; [|reflexivity].
  cbn [Str.all_chars]. now rewrite E, IH.
Qed.

Lemma frag_here_sound (ks : list string) (s v : string) :
  frag_here ks s = Some v ->
  Str.is_empty v = false /\ Str.all_chars Str.is_code_char v = true.
Proof.
  induction ks as [|k r IH]; cbn [frag_here]; [discriminate|].
  destruct (frag_alt s k) as [w|] eqn:E; [|exact IH].
  intros [= <-]. unfold frag_alt in E.
  destruct (Str.strip_prefix_ci k s) as [[|c rest]|]; try discriminate.
  destruct (Ascii.eqb c "=") eqn:Ec.
  - apply Ascii.eqb_eq in Ec. subst c.
    destruct (Str.is_empty (Str.take_while Str.is_code_char rest)) eqn:Ee;
      [discriminate|].
    injection E as <-. split; [exact Ee | apply take_while_all_chars].
  - exfalso. apply Ascii.eqb_neq in Ec.
    destruct c as [[] [] [] [] [] [] [] []]; try discriminate E.
    now apply Ec.
Qed.

Lemma frag_match_sound (s v : string) :
  frag_match s = Some v ->
  Str.is_empty v = false /\ Str.all_chars Str.is_code_char v = true.
Proof.
  induction s as [|c r IH]; cbn [frag_match].
  - destruct (frag_here fragKeys EmptyString) eqn:E; [|discriminate].
    intros [= <-]. eapply frag_here_sound; eauto.
  - destruct (frag_here fragKeys (String c r)) eqn:E; [|exact IH].
    intros [= <-]. eapply frag_here_sound; eauto.
Qed.

Lemma class_run_nonempty (p : ascii -> bool) (c : string) :
  Str.class_run p 1 None c = true ->
  Str.is_empty c = false /\ Str.all_chars p c = true.
Proof.
  unfold Str.class_run. rewrite andb_true_r. intros H.
  apply andb_true_iff in H as [Ha Hl]. split; [|exact Ha].
  destruct c; [discriminate Hl | reflexivity].
Qed.

Lemma trim_empty_inv (r : string) :
  Str.is_empty (Str.trim r) = false -> Str.is_empty r = false.
Proof. destruct r; [intros H; exact H | reflexivity]. Qed.

Lemma In_Array_sort (l : list string) (c : string) :
  In c (Array_sort comparator l) <-> In c l.
Proof.
  pose proof (Array_sort_perm score l) as Hp. split; intros H.
  - eapply Permutation_in; [apply Permutation_sym; exact Hp | exact H].
  - eapply Permutation_in; [exact Hp | exact H].
Qed.

Section ExtractorFacts.

Variable URL_parse : string -> option URL.

(** The result on a URL that parses: the sorted store of the [try]
    block. *)
Lemma extract_URL_store (r : string) (u : URL) :
  Str.is_empty r = false ->
  isURL r = true ->
  URL_parse (Str.trim r) = Some u ->
  extractCandidates URL_parse (Some r)
  = Normal (Array_sort comparator
              (snd (scrape_URL URL_parse (Str.trim r) []))).
Proof.
  intros Hr Hu Hp. unfold extractCandidates. rewrite Hr.
  assert (Hu' : isURL (Str.trim r) = true).
  { unfold isURL in *. now rewrite trim_idempotent. }
  rewrite Hu'. unfold try_catch.
  destruct (scrape_URL_members URL_parse _ u Hp []) as [[a Ha] _].
  destruct (scrape_URL URL_parse (Str.trim r) []) as [[x|e] out];
    [reflexivity | discriminate Ha].
Qed.

(** X4. Non-URL passthrough: a non-empty input that is not URL-shaped
    gives exactly one candidate, its trimmed form. *)
Theorem extractCandidates_passthrough (r : string) :
  Str.is_empty r = false ->
  isURL r = false ->
  extractCandidates URL_parse (Some r) = Normal [Str.trim r].
Proof.
  intros Hr Hu. unfold extractCandidates. rewrite Hr.
  assert (Hu' : isURL (Str.trim r) = false).
  { unfold isURL in *. now rewrite trim_idempotent. }
  rewrite Hu'. reflexivity.
Qed.

(** X5. White space around the input does not change the result, as long
    as the input is not white space only. *)
Theorem extractCandidates_ignores_outer_space (r : string) :
  Str.is_empty (Str.trim r) = false ->
  extractCandidates URL_parse (Some (Str.trim r))
  = extractCandidates URL_parse (Some r).
Proof.
  intros Ht. pose proof (trim_empty_inv r Ht) as Hr.
  unfold extractCandidates. rewrite Ht, Hr, trim_idempotent. reflexivity.
Qed.

(** X6. On a URL that parses, the candidates are exactly: the trimmed
    non-empty values of the seven query keys, the last non-empty path
    segment when it is made of [A-Za-z0-9._-], and the value captured in
    the fragment. *)
Theorem extractCandidates_URL_members (r : string) (u : URL)
    (l : list string) (c : string) :
  Str.is_empty r = false ->
  isURL r = true ->
  URL_parse (Str.trim r) = Some u ->
  extractCandidates URL_parse (Some r) = Normal l ->
  In c l
  <-> (exists k v,
         In k ["ean"; "gtin"; "barcode"; "sku"; "model"; "code"; "id"]
         /\ searchParams_get k (searchParams u) = Some v
         /\ Str.is_empty v = false /\ c = Str.trim v)
      \/ (Str.pop (filter (fun x => negb (Str.is_empty x))
                     (Str.split "/" (pathname u))) = Some c
          /\ Str.class_run Str.is_code_char 1 None c = true)
      \/ frag_match (drop_hash (hash u)) = Some c.
Proof.
  intros Hr Hu Hp. rewrite (extract_URL_store r u Hr Hu Hp).
  intros [= <-]. rewrite In_Array_sort.
  destruct (scrape_URL_members URL_parse _ u Hp []) as [_ Hin].
  rewrite Hin. cbn [In]. unfold candKeys. tauto.
Qed.

(** X7. On a URL that parses, a candidate that is not the value of a query
    parameter is never empty and holds only characters of
    [A-Za-z0-9._-]. *)
Theorem extractCandidates_URL_clean (r : string) (u : URL)
    (l : list string) (c : string) :
  Str.is_empty r = false ->
  isURL r = true ->
  URL_parse (Str.trim r) = Some u ->
  extractCandidates URL_parse (Some r) = Normal l ->
  In c l ->
  (exists k v,
     In k candKeys /\ searchParams_get k (searchParams u) = Some v
     /\ c = Str.trim v)
  \/ (Str.is_empty c = false /\ Str.all_chars Str.is_code_char c = true).
Proof.
  intros Hr Hu Hp. rewrite (extract_URL_store r u Hr Hu Hp).
  intros [= <-]. rewrite In_Array_sort.
  destruct (scrape_URL_members URL_parse _ u Hp []) as [_ Hin].
  rewrite Hin. cbn [In].
  intros [[]|[(k & v & Hk & Hv & _ & Hc)|[[_ H]|H]]].
  - left. exists k, v. auto.
  - right. now apply class_run_nonempty.
  - right. eapply frag_match_sound; eauto.
Qed.

End ExtractorFacts.

Lemma extractCandidates_passthrough_witness :
  extractCandidates URL_table (Some " 6401234 ") = Normal ["6401234"].
Proof.
  apply (extractCandidates_passthrough URL_table " 6401234 "); reflexivity.
Defined.

Lemma extractCandidates_ignores_outer_space_witness :
  extractCandidates URL_table (Some "6401234")
  = extractCandidates URL_table (Some " 6401234 ").
Proof.
  apply (extractCandidates_ignores_outer_space URL_table " 6401234 ").
  reflexivity.
Defined.

Lemma extractCandidates_URL_members_witness :
  In "AB-1" [EmptyString; "p"; "AB-1"].
Proof.
  apply (extractCandidates_URL_members URL_table
           "https://decathlon.re/p?sku=%20#Code=AB-1/x"
           {| searchParams := [("sku", " ")]; pathname := "/p";
              hash := "#Code=AB-1/x" |}
           [EmptyString; "p"; "AB-1"] "AB-1");
    try reflexivity.
  right. right. reflexivity.
Defined.

Lemma extractCandidates_URL_clean_witness :
  (exists k v,
     In k candKeys
     /\ searchParams_get k [("ean", "3608459693135")] = Some v
     /\ "123" = Str.trim v)
  \/ (Str.is_empty "123" = false
      /\ Str.all_chars Str.is_code_char "123" = true).
Proof.
  apply (extractCandidates_URL_clean URL_table
           "https://shop.example/p/123?ean=3608459693135"
           {| searchParams := [("ean", "3608459693135")];
              pathname := "/p/123"; hash := EmptyString |}
           ["3608459693135"; "123"] "123");
    try reflexivity.
  right. left. reflexivity.
Defined.

(** ** How many candidates, how many requests *)

Lemma grows_ret {A : Type} (a : A) : grows 0 (ret a).
Proof. intros s. cbn. lia. Qed.

Lemma grows_throw {A : Type} (e : exn) : grows 0 (@throw (list string) A e).
Proof. intros s. cbn. lia. Qed.

Lemma grows_Set_add (x : string) : grows 1 (Set_add x).
Proof.
  intros s. unfold Set_add. cbn [snd].
  destruct (existsb (String.eqb x) s); [lia|].
  rewrite length_app. cbn. lia.
Qed.

Lemma grows_le {A : Type} (j k : nat) (m : M (list string) A) :
  j <= k -> grows j m -> grows k m.
Proof. intros Hjk Hm s. specialize (Hm s). lia. Qed.

Lemma grows_bind {A B : Type} (j k : nat) (m : M (list string) A)
    (f : A -> M (list string) B) :
  grows j m -> (forall a, grows k (f a)) -> grows (j + k) (bind m f).
Proof.
  intros Hm Hf s. unfold bind. specialize (Hm s).
  destruct (m s) as [[a|e] s1]; cbn [snd] in *; [|lia].
  specialize (Hf a s1). lia.
Qed.

Lemma grows_forEach {A : Type} (k : nat) (xs : list A)
    (f : A -> M (list string) unit) :
  (forall x, grows k (f x)) -> grows (List.length xs * k) (forEach xs f).
Proof.
  intros Hf. induction xs as [|x r IH]; cbn [forEach List.length].
  - apply grows_ret.
  - change (S (List.length r) * k) with (k + List.length r * k).
    apply grows_bind; auto.
Qed.

Lemma scrape_URL_grows (URL_parse : string -> option URL) (s : string) :
  grows 9 (scrape_URL URL_parse s).
Proof.
  unfold scrape_URL, new_URL.
  change 9 with (0 + (List.length candKeys * 1 + (1 + 1))).
  apply grows_bind.
  - destruct (URL_parse s); [apply grows_ret | apply grows_throw].
  - intros u. apply grows_bind; [|intros _; apply grows_bind; [|intros _]].
    + apply grows_forEach. intros k.
      destruct (searchParams_get k (searchParams u)) as [v|];
        [|apply (grows_le 0); [lia | apply grows_ret]].
      destruct (Str.is_empty v);
        [apply (grows_le 0); [lia | apply grows_ret] | apply grows_Set_add].
    + destruct (Str.pop _) as [last|];
        [|apply (grows_le 0); [lia | apply grows_ret]].
      destruct (Str.class_run _ _ _ last);
        [apply grows_Set_add | apply (grows_le 0); [lia | apply grows_ret]].
    + destruct (frag_match _);
        [apply grows_Set_add | apply (grows_le 0); [lia | apply grows_ret]].
Qed.

Lemma Array_sort_length (l : list string) :
  List.length (Array_sort comparator l) = List.length l.
Proof.
  apply eq_sym, Permutation_length, (Array_sort_perm score).
Qed.

Lemma extractCandidates_length (URL_parse : string -> option URL)
    (raw : option string) (l : list string) :
  extractCandidates URL_parse raw = Normal l -> List.length l <= 9.
Proof.
  unfold extractCandidates.
  destruct raw as [r|]; [|intros [= <-]; cbn; lia].
  destruct (Str.is_empty r); [intros [= <-]; cbn; lia|].
  destruct (isURL (Str.trim r)).
  - pose proof (scrape_URL_grows URL_parse (Str.trim r) []) as Hg.
    unfold try_catch.
    destruct (scrape_URL URL_parse (Str.trim r) []) as [[a|e] out];
      cbn [snd ret List.length] in *; intros [= <-];
      rewrite Array_sort_length; lia.
  - pose proof (grows_Set_add (Str.trim r) []) as Hg.
    destruct (Set_add (Str.trim r) []) as [[a|e] out];
      cbn [snd List.length] in *; intros [= <-];
      rewrite ?Array_sort_length; lia.
Qed.

(** ** Resolver *)

Lemma planned_explicit (c : string) :
  planned c
  = ((if isEAN c
      then [{| query := Q_VARIANT_BY_QUERY; variables := "barcode:" ++ c |}]
      else [])
     ++ (if isSKU c
         then [{| query := Q_VARIANT_BY_QUERY; variables := "sku:" ++ c |}]
         else [])
     ++ (if isModel c
         then [{| query := Q_PRODUCTS_BY_QUERY;
                  variables := "tag:" ++ dquote ++ "Model: " ++ c ++ dquote |};
               {| query := Q_PRODUCTS_BY_QUERY; variables := c |}]
         else [])
     ++ [{| query := Q_PRODUCTS_BY_QUERY; variables := c |}])%list.
Proof.
  unfold planned, cascade_order. cbn [filter applies].
  destruct (isEAN c), (isSKU c), (isModel c); reflexivity.
Qed.

Lemma planned_length (c : string) : 1 <= List.length (planned c) <= 5.
Proof.
  rewrite planned_explicit.
  destruct (isEAN c), (isSKU c), (isModel c); cbn; lia.
Qed.

Section ResolverFacts.

Variable upstream : Trace -> Request -> Reply.

(** X9. A match returned by the resolver has a non-empty handle, comes
    from the last request sent, every request before it having returned
    without a match, and carries the source tag of the strategy of that
    request, which applied to the candidate's shape. *)
Theorem resolveHandleFromCode_match (code : string) (t : Trace)
    (res : Result) :
  fst (resolveHandleFromCode upstream code t) = Normal (Some res) ->
  Str.is_empty (handle res) = false
  /\ exists pre req j,
       snd (resolveHandleFromCode upstream code t)
       = (t ++ pre ++ [(req, j)])%list
       /\ Forall call_quiet pre
       /\ reply_matches (query req) j = true
       /\ ((source res = "barcode" /\ isEAN code = true
            /\ req = {| query := Q_VARIANT_BY_QUERY;
                        variables := "barcode:" ++ Str.trim code |})
           \/ (source res = "sku" /\ isSKU code = true
               /\ req = {| query := Q_VARIANT_BY_QUERY;
                           variables := "sku:" ++ Str.trim code |})
           \/ (source res = "tag:model" /\ isModel code = true
               /\ req = {| query := Q_PRODUCTS_BY_QUERY;
                           variables := "tag:" ++ dquote ++ "Model: "
                                        ++ Str.trim code ++ dquote |})
           \/ (source res = "search:model" /\ isModel code = true
               /\ req = {| query := Q_PRODUCTS_BY_QUERY;
                           variables := Str.trim code |})
           \/ (source res = "search:any"
               /\ req = {| query := Q_PRODUCTS_BY_QUERY;
                           variables := Str.trim code |})).
Proof.
  rewrite resolve_as_cascade. intros H.
  destruct (run_cascade_outcome upstream (Str.trim code) cascade_order t)
    as (new & Hsnd & Hout).
  rewrite H in Hout.
  destruct Hout as (pre & j & st & Hnew & Hq & Hres & _ & Hap & _).
  destruct (reply_result_match _ _ _ _ Hres) as (Hsrc & Hh & Hm & _).
  split; [exact Hh|].
  exists pre, (request_of (Str.trim code) st), j.
  split; [rewrite Hsnd, Hnew; reflexivity|].
  split; [exact Hq|]. split; [exact Hm|].
  destruct (classifier_trim code) as (He & Hs & Hmo).
  rewrite Hsrc.
  destruct st; cbn [applies] in Hap; cbn [source_of request_of].
  - left. rewrite <- He. auto.
  - right; left. rewrite <- Hs. auto.
  - right; right; left. rewrite <- Hmo. auto.
  - right; right; right; left. rewrite <- Hmo. auto.
  - right; right; right; right. auto.
Qed.

(** X10. When the resolver returns [null], it has sent every request that
    applies to the candidate's shape, in order, and each one returned
    without a match; a Model-shaped candidate has then sent the bare
    free-text product query twice. *)
Theorem resolveHandleFromCode_null (code : string) (t : Trace) :
  fst (resolveHandleFromCode upstream code t) = Normal None ->
  exists new,
    snd (resolveHandleFromCode upstream code t) = (t ++ new)%list
    /\ Forall call_quiet new
    /\ map fst new
       = ((if isEAN code
           then [{| query := Q_VARIANT_BY_QUERY;
                    variables := "barcode:" ++ Str.trim code |}]
           else [])
          ++ (if isSKU code
              then [{| query := Q_VARIANT_BY_QUERY;
                       variables := "sku:" ++ Str.trim code |}]
              else [])
          ++ (if isModel code
              then [{| query := Q_PRODUCTS_BY_QUERY;
                       variables := "tag:" ++ dquote ++ "Model: "
                                    ++ Str.trim code ++ dquote |};
                    {| query := Q_PRODUCTS_BY_QUERY;
                       variables := Str.trim code |}]
              else [])
          ++ [{| query := Q_PRODUCTS_BY_QUERY;
                 variables := Str.trim code |}])%list.
Proof.
  rewrite resolve_as_cascade. intros H.
  destruct (run_cascade_outcome upstream (Str.trim code) cascade_order t)
    as (new & Hsnd & Hout).
  rewrite H in Hout. destruct Hout as [Hmap Hq].
  exists new. split; [exact Hsnd|]. split; [exact Hq|].
  destruct (classifier_trim code) as (He & Hs & Hmo).
  rewrite Hmap. fold (planned (Str.trim code)).
  rewrite planned_explicit, He, Hs, Hmo. reflexivity.
Qed.

(** X11. For one candidate the resolver sends at least one request and at
    most five; a candidate that is not SKU-shaped gets exactly one, the
    free-text product query. *)
Theorem resolveHandleFromCode_requests (code : string) (t new : Trace) :
  snd (resolveHandleFromCode upstream code t) = (t ++ new)%list ->
  1 <= List.length new <= 5
  /\ (isSKU code = false ->
      map fst new = [{| query := Q_PRODUCTS_BY_QUERY;
                        variables := Str.trim code |}]).
Proof.
  intros Hsnd.
  destruct (resolve_post upstream code t) as (new1 & Hsnd1 & [n Hn] & _).
  rewrite Hsnd1 in Hsnd. apply app_inv_head in Hsnd. subst new1.
  assert (Hlow : 1 <= List.length new).
  { pose proof (resolve_as_cascade upstream code t) as Hc.
    destruct (run_cascade_outcome upstream (Str.trim code) cascade_order t)
      as (new2 & Hsnd2 & Hout).
    rewrite <- Hc, Hsnd1 in Hsnd2. apply app_inv_head in Hsnd2. subst new2.
    rewrite <- Hc in Hout.
    destruct (fst (resolveHandleFromCode upstream code t)) as [[res|]|e].
    - destruct Hout as (pre & j & st & -> & _).
      rewrite length_app. cbn. lia.
    - destruct Hout as [Hmap _].
      apply (f_equal (@List.length Request)) in Hmap.
      rewrite length_map in Hmap. rewrite Hmap.
      apply (planned_length (Str.trim code)).
    - destruct Hout as (pre & rq & j & -> & _).
      rewrite length_app. cbn. lia. }
  assert (Hlen : List.length new = List.length (firstn n (planned (Str.trim code))))
    by (rewrite <- Hn; apply eq_sym, length_map).
  split.
  - split; [exact Hlow|].
    rewrite Hlen, length_firstn.
    pose proof (planned_length (Str.trim code)). lia.
  - intros Hsku. destruct (classifier_trim code) as (He & Hs & Hmo).
    rewrite Hn. rewrite planned_explicit in *.
    assert (isEAN code = false) as E1.
    { destruct (isEAN code) eqn:E; [|reflexivity].
      apply isEAN_implies_isSKU in E. congruence. }
    assert (isModel code = false) as E2.
    { destruct (isModel code) eqn:E; [|reflexivity].
      apply isModel_implies_isSKU in E. congruence. }
    rewrite He, Hs, Hmo, E1, Hsku, E2 in *. cbn [app] in *.
    destruct n as [|n]; [cbn in Hlen; lia|].
    cbn [firstn]. now rewrite firstn_nil.
Qed.

End ResolverFacts.

Lemma resolveHandleFromCode_match_witness :
  Str.is_empty "some-product" = false.
Proof.
  apply (resolveHandleFromCode_match catalog_sample "3608459693135" []
           {| handle := "some-product";
              variantId := Some "gid://shopify/ProductVariant/12345";
              source := "barcode" |}).
  reflexivity.
Defined.

Lemma resolveHandleFromCode_null_witness :
  exists new,
    snd (resolveHandleFromCode catalog_empty "6401234" []) = new
    /\ List.length new = 4.
Proof.
  destruct (resolveHandleFromCode_null catalog_empty "6401234" [] eq_refl)
    as (new & Hsnd & _ & Hmap).
  exists new. split; [exact Hsnd|].
  rewrite <- (length_map fst), Hmap. reflexivity.
Defined.

Lemma resolveHandleFromCode_requests_witness :
  map fst (snd (resolveHandleFromCode catalog_empty "KIT 1" []))
  = [{| query := Q_PRODUCTS_BY_QUERY; variables := "KIT 1" |}].
Proof.
  apply (resolveHandleFromCode_requests catalog_empty "KIT 1" []
           (snd (resolveHandleFromCode catalog_empty "KIT 1" [])) eq_refl).
  reflexivity.
Defined.

(** ** The loop and the routes *)

Section LoopOutcome.

Variable upstream : Trace -> Request -> Reply.

Lemma first_hit_step (c : string) (rest : list string) (t : Trace) :
  first_hit upstream (c :: rest) t
  = match resolveHandleFromCode upstream c t with
    | (Normal (Some r), t1) => (Normal (Some r), t1)
    | (Normal None, t1) => first_hit upstream rest t1
    | (Throw e, t1) => (Throw e, t1)
    end.
Proof.
  unfold first_hit. rewrite for_of_loop_step.
  destruct (resolve_post upstream c t) as (_ & _ & _ & _ & _ & Hh).
  destruct (resolveHandleFromCode upstream c t) as [[[r|]|e] t1];
    try reflexivity.
  cbn [fst] in Hh. now rewrite (Hh r eq_refl).
Qed.

(** The three ways the loop ends. *)
Lemma first_hit_outcome (cands : list string) (t : Trace) :
  exists new,
    snd (first_hit upstream cands t) = (t ++ new)%list
    /\ List.length new <= 5 * List.length cands
    /\ match fst (first_hit upstream cands t) with
       | Normal None =>
           map fst new = flat_map (fun c => planned (Str.trim c)) cands
           /\ Forall call_quiet new
       | Normal (Some res) =>
           exists pre c post t1,
             cands = (pre ++ c :: post)%list
             /\ first_hit upstream pre t = (Normal None, t1)
             /\ resolveHandleFromCode upstream c t1
                = (Normal (Some res), (t ++ new)%list)
       | Throw e =>
           exists pre c post t1,
             cands = (pre ++ c :: post)%list
             /\ first_hit upstream pre t = (Normal None, t1)
             /\ resolveHandleFromCode upstream c t1
                = (Throw e, (t ++ new)%list)
       end.
Proof.
  revert t. induction cands as [|c rest IH]; intros t.
  - exists []. cbn. rewrite app_nil_r. auto.
  - rewrite first_hit_step.
    pose proof (resolve_as_cascade upstream c t) as Hc.
    destruct (run_cascade_outcome upstream (Str.trim c) cascade_order t)
      as (n1 & Hsnd1 & Hout1).
    destruct (resolve_post upstream c t) as (n1' & Hsnd1' & [n Hn] & _).
    rewrite <- Hc in Hsnd1, Hout1.
    rewrite Hsnd1 in Hsnd1'. apply app_inv_head in Hsnd1'. subst n1'.
    assert (Hlen : List.length n1 <= 5).
    { rewrite <- (length_map fst), Hn, length_firstn.
      pose proof (planned_length (Str.trim c)). lia. }
    destruct (resolveHandleFromCode upstream c t) as [[[r|]|e] t1] eqn:Er;
      cbn [fst snd] in *; subst t1.
    + exists n1. split; [reflexivity|]. split; [cbn [List.length]; lia|].
      exists [], c, rest, t. auto.
    + destruct (IH (t ++ n1)%list) as (n2 & Hsnd2 & Hlen2 & Hout2).
      exists (n1 ++ n2)%list.
      split; [rewrite Hsnd2; apply eq_sym, app_assoc|].
      split; [rewrite length_app; cbn [List.length]; lia|].
      destruct Hout1 as [Hmap1 Hq1].
      destruct (fst (first_hit upstream rest (t ++ n1)%list)) as [[res|]|e].
      * destruct Hout2 as (pre & c' & post & t2 & -> & Hpre & Hres).
        exists (c :: pre), c', post, t2.
        split; [reflexivity|].
        split; [rewrite first_hit_step, Er; exact Hpre|].
        rewrite Hres, app_assoc. reflexivity.
      * destruct Hout2 as [Hmap2 Hq2].
        split; [|apply Forall_app; auto].
        rewrite map_app, Hmap1, Hmap2. reflexivity.
      * destruct Hout2 as (pre & c' & post & t2 & -> & Hpre & Hres).
        exists (c :: pre), c', post, t2.
        split; [reflexivity|].
        split; [rewrite first_hit_step, Er; exact Hpre|].
        rewrite Hres, app_assoc. reflexivity.
    + exists n1. split; [reflexivity|]. split; [cbn [List.length]; lia|].
      exists [], c, rest, t. auto.
Qed.

End LoopOutcome.

Section RouteOutcome.

Variable URL_parse : string -> option URL.
Variable upstream : Trace -> Request -> Reply.

Lemma app_self_nil {A : Type} (t new : list A) :
  t = (t ++ new)%list -> new = [].
Proof.
  intros H. rewrite <- (app_nil_r t) in H at 1.
  now apply app_inv_head in H.
Qed.

(** A missing or empty [raw]: both routes answer 400 and send nothing. *)
Lemma routes_missing_raw (raw : option string) (t : Trace) :
  raw = None \/ raw = Some EmptyString ->
  scan_lookup URL_parse upstream raw t
  = (Normal (Json 400 (ErrorBody "Missing raw param")), t)
  /\ r_redirect URL_parse upstream raw t
     = (Normal (Send 400 "Missing raw"), t).
Proof. intros [-> | ->]; split; reflexivity. Qed.

Lemma raw_cases (raw : option string) :
  (raw = None \/ raw = Some EmptyString)
  \/ exists r, raw = Some r /\ Str.is_empty r = false.
Proof.
  destruct raw as [[|c r]|]; auto.
  right. exists (String c r). auto.
Qed.

(** X8. One inbound request costs at most nine candidates and at most 45
    upstream requests, on either route. *)
Theorem lookup_budget (raw : option string) (t new : Trace) :
  snd (scan_lookup URL_parse upstream raw t) = (t ++ new)%list
  \/ snd (r_redirect URL_parse upstream raw t) = (t ++ new)%list ->
  (forall l, extractCandidates URL_parse raw = Normal l ->
             List.length l <= 9)
  /\ List.length new <= 45.
Proof.
  intros Hsnd. split; [apply extractCandidates_length|].
  destruct (raw_cases raw) as [Hm|(r & -> & Hr)].
  - destruct (routes_missing_raw raw t Hm) as [H1 H2].
    rewrite H1, H2 in Hsnd. cbn [snd] in Hsnd.
    assert (new = []) by (destruct Hsnd; eapply app_self_nil; eauto).
    subst new. cbn. lia.
  - destruct (extractCandidates_shape URL_parse (Some r)) as (out & _ & Hc).
    pose proof (extractCandidates_length _ _ _ Hc) as Hlen.
    rewrite (scan_lookup_run _ _ _ _ _ Hr Hc) in Hsnd.
    rewrite (r_redirect_run _ _ _ _ _ Hr Hc) in Hsnd. cbn [snd] in Hsnd.
    destruct (first_hit_outcome upstream (Array_sort comparator out) t)
      as (new0 & Hsnd0 & Hlen0 & _).
    rewrite Hsnd0 in Hsnd.
    assert (new0 = new)
      by (destruct Hsnd as [H|H]; now apply app_inv_head in H).
    subst new0. lia.
Qed.

(** X12. The two routes send the same requests, and every inbound request
    ends in one of three ways: 200 on the JSON route with the redirect
    going to the URL of the JSON body; 500 [lookup_failed] with the
    redirect going to the search URL; 400 on both, with nothing sent. *)
Theorem routes_agree (raw : option string) (t : Trace) :
  snd (r_redirect URL_parse upstream raw t)
  = snd (scan_lookup URL_parse upstream raw t)
  /\ ((exists h vid src url tried,
         fst (scan_lookup URL_parse upstream raw t)
         = Normal (Json 200 (ResultBody h vid src url tried))
         /\ fst (r_redirect URL_parse upstream raw t)
            = Normal (Redirect 302 url))
      \/ (exists r,
            raw = Some r
            /\ fst (scan_lookup URL_parse upstream raw t)
               = Normal (Json 500 (ErrorBody "lookup_failed"))
            /\ fst (r_redirect URL_parse upstream raw t)
               = Normal (Redirect 302 (search_url r)))
      \/ (scan_lookup URL_parse upstream raw t
          = (Normal (Json 400 (ErrorBody "Missing raw param")), t)
          /\ r_redirect URL_parse upstream raw t
             = (Normal (Send 400 "Missing raw"), t))).
Proof.
  destruct (raw_cases raw) as [Hm|(r & -> & Hr)].
  - destruct (routes_missing_raw raw t Hm) as [H1 H2].
    rewrite H1, H2. split; [reflexivity|]. right; right. auto.
  - destruct (extractCandidates_shape URL_parse (Some r)) as (out & _ & Hc).
    rewrite (scan_lookup_run _ _ _ _ _ Hr Hc).
    rewrite (r_redirect_run _ _ _ _ _ Hr Hc). cbn [fst snd].
    split; [reflexivity|].
    destruct (fst (first_hit upstream (Array_sort comparator out) t))
      as [[res|]|e].
    + left. repeat eexists.
    + left. repeat eexists.
    + right; left. exists r. auto.
Qed.

(** X13. The redirect route, given a non-empty [raw], always answers with
    a 302 to the storefront: a product page or the search page. *)
Theorem r_redirect_navigable (r : string) (t : Trace) :
  Str.is_empty r = false ->
  exists url,
    fst (r_redirect URL_parse upstream (Some r) t) = Normal (Redirect 302 url)
    /\ ((exists rest, url = "https://decathlon.re/products/" ++ rest)
        \/ url = "https://decathlon.re/search?q="
                 ++ Str.encodeURIComponent (Str.trim r)).
Proof.
  intros Hr.
  destruct (extractCandidates_shape URL_parse (Some r)) as (out & _ & Hc).
  rewrite (r_redirect_run _ _ _ _ _ Hr Hc). cbn [fst].
  destruct (fst (first_hit upstream (Array_sort comparator out) t))
    as [[res|]|e].
  - exists (product_url res). split; [reflexivity|]. left.
    unfold product_url.
    destruct (variantIdShort res) as [short|]; [|eexists; reflexivity].
    destruct (Str.is_empty short); eexists; reflexivity.
  - exists (search_url r). split; [reflexivity|]. right. reflexivity.
  - exists (search_url r). split; [reflexivity|]. right. reflexivity.
Qed.

(** X14. The JSON route answers 400 exactly when [raw] is missing or
    empty. *)
Theorem scan_lookup_400_iff (raw : option string) (t : Trace) :
  (exists body,
     fst (scan_lookup URL_parse upstream raw t) = Normal (Json 400 body))
  <-> (raw = None \/ raw = Some EmptyString).
Proof.
  split.
  - intros [body H].
    destruct (raw_cases raw) as [Hm|(r & -> & Hr)]; [exact Hm|].
    exfalso.
    destruct (extractCandidates_shape URL_parse (Some r)) as (out & _ & Hc).
    rewrite (scan_lookup_run _ _ _ _ _ Hr Hc) in H. cbn [fst] in H.
    destruct (fst (first_hit upstream (Array_sort comparator out) t))
      as [[res|]|e]; discriminate H.
  - intros Hm. destruct (routes_missing_raw raw t Hm) as [H _].
    rewrite H. eexists. reflexivity.
Qed.

End RouteOutcome.

Section FirstMatch.

Variable URL_parse : string -> option URL.
Variable upstream : Trace -> Request -> Reply.

(** X15. First match wins: when the JSON route answers with a match, the
    candidates before the matching one each had all their requests sent
    and answered without a match, the matching candidate's lookup ends
    the exchange, and no request is sent for the candidates after it. *)
Theorem scan_lookup_first_match (raw : option string) (t : Trace)
    (h : string) (vid : option string) (src url : string)
    (tried : list string) :
  fst (scan_lookup URL_parse upstream raw t)
  = Normal (Json 200 (ResultBody (Some h) vid src url tried)) ->
  exists pre c post mid last res,
    tried = (pre ++ c :: post)%list
    /\ snd (scan_lookup URL_parse upstream raw t) = (t ++ mid ++ last)%list
    /\ map fst mid = flat_map (fun x => planned (Str.trim x)) pre
    /\ Forall call_quiet mid
    /\ resolveHandleFromCode upstream c (t ++ mid)%list
       = (Normal (Some res), (t ++ mid ++ last)%list)
    /\ h = handle res /\ vid = variantId res /\ src = source res
    /\ extractCandidates URL_parse raw = Normal tried.
Proof.
  intros H.
  destruct (raw_cases raw) as [Hm|(r & -> & Hr)].
  { destruct (routes_missing_raw URL_parse upstream raw t Hm) as [H1 _].
    rewrite H1 in H. discriminate H. }
  destruct (extractCandidates_shape URL_parse (Some r)) as (out & _ & Hc).
  rewrite (scan_lookup_run _ _ _ _ _ Hr Hc) in *. cbn [fst snd] in *.
  destruct (first_hit_outcome upstream (Array_sort comparator out) t)
    as (new & Hsnd & _ & Hout).
  destruct (fst (first_hit upstream (Array_sort comparator out) t))
    as [[res|]|e]; try discriminate H.
  injection H as <- <- <- _ <-.
  destruct Hout as (pre & c & post & t1 & Hsplit & Hpre & Hres).
  destruct (first_hit_outcome upstream pre t) as (mid & Hsnd1 & _ & Hout1).
  rewrite Hpre in Hsnd1, Hout1. cbn [fst snd] in *. subst t1.
  destruct Hout1 as [Hmap Hq].
  destruct (resolve_post upstream c (t ++ mid)%list) as (last & Hlast & _).
  rewrite Hres in Hlast. cbn [snd] in Hlast.
  rewrite <- app_assoc in Hlast.
  exists pre, c, post, mid, last, res.
  rewrite Hsnd, Hlast. rewrite Hlast in Hres. auto 12.
Qed.

(** X16. When the JSON route answers with the fallback, every request
    planned for every candidate was sent, candidate by candidate in the
    order of [tried], and each returned without a match. *)
Theorem scan_lookup_fallback_exhaustive (raw : option string) (t : Trace)
    (vid : option string) (src url : string) (tried : list string) :
  fst (scan_lookup URL_parse upstream raw t)
  = Normal (Json 200 (ResultBody None vid src url tried)) ->
  exists new,
    snd (scan_lookup URL_parse upstream raw t) = (t ++ new)%list
    /\ map fst new = flat_map (fun x => planned (Str.trim x)) tried
    /\ Forall call_quiet new
    /\ extractCandidates URL_parse raw = Normal tried.
Proof.
  intros H.
  destruct (raw_cases raw) as [Hm|(r & -> & Hr)].
  { destruct (routes_missing_raw URL_parse upstream raw t Hm) as [H1 _].
    rewrite H1 in H. discriminate H. }
  destruct (extractCandidates_shape URL_parse (Some r)) as (out & _ & Hc).
  rewrite (scan_lookup_run _ _ _ _ _ Hr Hc) in *. cbn [fst snd] in *.
  destruct (first_hit_outcome upstream (Array_sort comparator out) t)
    as (new & Hsnd & _ & Hout).
  destruct (fst (first_hit upstream (Array_sort comparator out) t))
    as [[res|]|e]; try discriminate H.
  injection H as _ _ _ <-. destruct Hout as [Hmap Hq].
  exists new. auto.
Qed.

End FirstMatch.

Lemma lookup_budget_witness :
  List.length (snd (scan_lookup URL_table catalog_empty (Some "6401234") []))
  <= 45.
Proof.
  apply (lookup_budget URL_table catalog_empty (Some "6401234") []
           (snd (scan_lookup URL_table catalog_empty (Some "6401234") []))).
  left. reflexivity.
Defined.

Lemma r_redirect_navigable_witness :
  exists url,
    fst (r_redirect URL_table catalog_down (Some "6401 234 ") [])
    = Normal (Redirect 302 url).
Proof.
  destruct (r_redirect_navigable URL_table catalog_down "6401 234 " []
              eq_refl) as (url & H & _).
  exists url. exact H.
Defined.

Lemma scan_lookup_first_match_witness :
  exists pre c post,
    ["3608459693135"] = (pre ++ c :: post)%list.
Proof.
  destruct (scan_lookup_first_match URL_table catalog_sample
              (Some "https://decathlon.re/p/3608459693135") []
              "some-product" (Some "gid://shopify/ProductVariant/12345")
              "barcode"
              "https://decathlon.re/products/some-product?variant=12345"
              ["3608459693135"] eq_refl)
    as (pre & c & post & _ & _ & _ & H & _).
  exists pre, c, post. exact H.
Defined.

Lemma scan_lookup_fallback_exhaustive_witness :
  exists new,
    snd (scan_lookup URL_table catalog_empty (Some "6401234") []) = new
    /\ List.length new = 4.
Proof.
  destruct (scan_lookup_fallback_exhaustive URL_table catalog_empty
              (Some "6401234") [] None "fallback:search"
              "https://decathlon.re/search?q=6401234" ["6401234"] eq_refl)
    as (new & Hsnd & Hmap & _).
  exists new. split; [exact Hsnd|].
  rewrite <- (length_map fst), Hmap. reflexivity.
Defined.

(** ** The search URL *)

Lemma escape_safe (c : ascii) :
  query_safe (Str.hex_digit (Str.code c / 16)) = true
  /\ query_safe (Str.hex_digit (Str.code c mod 16)) = true.
Proof.
  destruct c as [[] [] [] [] [] [] [] []]; vm_compute; auto.
Qed.

Lemma escape_decodes (c : ascii) :
  byte_of_hex (Str.hex_digit (Str.code c / 16))
    (Str.hex_digit (Str.code c mod 16)) = c.
Proof.
  destruct c as [[] [] [] [] [] [] [] []]; vm_compute; reflexivity.
Qed.

Lemma code_char_unreserved (c : ascii) :
  Str.is_code_char c = true -> Str.is_unreserved c = true.
Proof.
  destruct c as [[] [] [] [] [] [] [] []]; vm_compute; auto.
Qed.

Lemma encode_safe (s : string) :
  Str.all_chars query_safe (Str.encodeURIComponent s) = true.
Proof.
  induction s as [|c r IH]; [reflexivity|].
  cbn [Str.encodeURIComponent].
  destruct (Str.is_unreserved c) eqn:E; cbn [Str.all_chars].
  - unfold query_safe at 1. now rewrite E, IH.
  - destruct (escape_safe c) as [H1 H2]. now rewrite H1, H2, IH.
Qed.

Lemma encode_verbatim (s : string) :
  Str.all_chars Str.is_unreserved s = true -> Str.encodeURIComponent s = s.
Proof.
  induction s as [|c r IH]; [reflexivity|].
  cbn [Str.all_chars Str.encodeURIComponent]. intros H.
  apply andb_true_iff in H as [Hc Hr]. now rewrite Hc, IH.
Qed.

Lemma encode_injective (s1 s2 : string) :
  Str.encodeURIComponent s1 = Str.encodeURIComponent s2 -> s1 = s2.
Proof.
  revert s2. induction s1 as [|c1 r1 IH]; intros [|c2 r2];
    cbn [Str.encodeURIComponent].
  - reflexivity.
  - destruct (Str.is_unreserved c2); discriminate.
  - destruct (Str.is_unreserved c1); discriminate.
  - destruct (Str.is_unreserved c1) eqn:E1, (Str.is_unreserved c2) eqn:E2;
      intros H.
    + injection H as -> Ht. f_equal. now apply IH.
    + injection H as Hc _. subst c1. discriminate E1.
    + injection H as Hc _. subst c2. discriminate E2.
    + injection H as Ha Hb Ht.
      f_equal; [|now apply IH].
      rewrite <- (escape_decodes c1), <- (escape_decodes c2).
      now rewrite Ha, Hb.
Qed.

Lemma append_inv_head (p a b : string) : p ++ a = p ++ b -> a = b.
Proof.
  induction p as [|c p IH]; cbn; [trivial|].
  intros H. injection H as H. auto.
Qed.

(** X17. The query of the search URL holds only unreserved characters and
    percent escapes, whatever the input; and two inputs get the same
    search URL only when they are equal up to outer white space. *)
Theorem search_url_safe_and_faithful (r1 r2 : string) :
  (exists q,
     search_url r1 = "https://decathlon.re/search?q=" ++ q
     /\ Str.all_chars query_safe q = true)
  /\ (search_url r1 = search_url r2 -> Str.trim r1 = Str.trim r2).
Proof.
  split.
  - exists (Str.encodeURIComponent (Str.trim r1)).
    split; [reflexivity | apply encode_safe].
  - unfold search_url. intros H.
    apply append_inv_head in H. now apply encode_injective.
Qed.

Lemma search_url_safe_and_faithful_witness :
  Str.trim " a b" = Str.trim "a b ".
Proof.
  apply (search_url_safe_and_faithful " a b" "a b "). reflexivity.
Defined.

(** X18. For an SKU-shaped input (EAN- and Model-shaped inputs included)
    the search URL carries the trimmed input as it is: nothing in it needs
    escaping. *)
Theorem search_url_of_code (r : string) :
  isSKU r = true ->
  search_url r = "https://decathlon.re/search?q=" ++ Str.trim r.
Proof.
  unfold isSKU, Str.class_run, search_url. intros H.
  apply andb_true_iff in H as [H _]. apply andb_true_iff in H as [H _].
  rewrite encode_verbatim; [reflexivity|].
  eapply all_chars_impl; [|exact H]. apply code_char_unreserved.
Qed.

Lemma search_url_of_code_witness :
  search_url " AB-12.x_9 " = "https://decathlon.re/search?q=AB-12.x_9".
Proof.
  apply (search_url_of_code " AB-12.x_9 "). reflexivity.
Defined.

(** ** Fragment pattern and variant identifier *)

Lemma take_while_run (p : ascii -> bool) (v rest : string) :
  Str.all_chars p v = true ->
  match rest with
  | EmptyString => True
  | String c _ => p c = false
  end ->
  Str.take_while p (v ++ rest) = v.
Proof.
  intros Hv Hrest. induction v as [|a v IH]; cbn [append Str.take_while].
  - destruct rest as [|c r]; [reflexivity|]. cbn [Str.take_while].
    now rewrite Hrest.
  - cbn [Str.all_chars] in Hv. apply andb_true_iff in Hv as [Ha Hv].
    now rewrite Ha, IH.
Qed.

(** X19. A fragment that starts with one of the six keys, an equals sign
    and a value over [A-Za-z0-9._-], the value ending the fragment or
    followed by a character outside that class, captures exactly that
    value. *)
Theorem frag_match_key_value (k v rest : string) :
  In k ["ean"; "gtin"; "barcode"; "sku"; "model"; "code"] ->
  Str.is_empty v = false ->
  Str.all_chars Str.is_code_char v = true ->
  match rest with
  | EmptyString => True
  | String c _ => Str.is_code_char c = false
  end ->
  frag_match (k ++ "=" ++ v ++ rest) = Some v.
Proof.
  intros Hk Hne Hv Hrest.
  pose proof (take_while_run Str.is_code_char v rest Hv Hrest) as Htw.
  assert (Hhere : frag_here fragKeys (k ++ "=" ++ v ++ rest) = Some v).
  { cbn [In] in Hk.
    destruct Hk as [<-|[<-|[<-|[<-|[<-|[<-|[]]]]]]];
      cbn; rewrite Htw, Hne; reflexivity. }
  destruct k as [|a k']; cbn [append frag_match] in *; now rewrite Hhere.
Qed.

Lemma frag_match_key_value_witness :
  frag_match ("sku" ++ "=" ++ "AB-12" ++ "&x=1") = Some "AB-12".
Proof.
  apply (frag_match_key_value "sku" "AB-12" "&x=1"); cbn; auto.
Defined.

Lemma split_no_sep (sep : ascii) (s : string) :
  Str.all_chars (fun c => negb (Ascii.eqb c sep)) s = true ->
  Str.split sep s = [s].
Proof.
  induction s as [|c r IH]; [reflexivity|].
  cbn [Str.all_chars Str.split]. intros H.
  apply andb_true_iff in H as [Hc Hr].
  apply negb_true_iff in Hc. now rewrite Hc, IH.
Qed.

Lemma split_append (sep : ascii) (p seg : string) :
  Str.all_chars (fun c => negb (Ascii.eqb c sep)) seg = true ->
  exists h t,
    Str.split sep (p ++ String sep seg) = h :: t /\ Str.pop t = Some seg.
Proof.
  intros Hseg. induction p as [|c p IH]; cbn [append Str.split].
  - rewrite Ascii.eqb_refl, split_no_sep by exact Hseg.
    exists EmptyString, [seg]. auto.
  - destruct IH as (h & t & -> & Hpop).
    destruct (Ascii.eqb c sep).
    + exists EmptyString, (h :: t). split; [reflexivity|].
      now rewrite pop_cons, Hpop.
    + exists (String c h), t. auto.
Qed.

(** X20. For a variant identifier that ends in a slash followed by a
    non-empty segment without slash (such as
    [gid://shopify/ProductVariant/12345]), the short identifier is that
    segment and the product URL ends in [?variant=<segment>]. *)
Theorem product_url_of_gid (h p seg src : string) :
  Str.is_empty seg = false ->
  Str.all_chars (fun c => negb (Ascii.eqb c "/")) seg = true ->
  variantIdShort {| handle := h; variantId := Some (p ++ "/" ++ seg);
                    source := src |} = Some seg
  /\ product_url {| handle := h; variantId := Some (p ++ "/" ++ seg);
                    source := src |}
     = "https://decathlon.re/products/" ++ h ++ "?variant=" ++ seg.
Proof.
  intros Hne Hseg.
  assert (Hshort : variantIdShort
                     {| handle := h; variantId := Some (p ++ "/" ++ seg);
                        source := src |} = Some seg).
  { unfold variantIdShort. cbn [variantId].
    destruct (split_append "/" p seg Hseg) as (x & t & Hsplit & Hpop).
    change ("/" ++ seg) with (String "/" seg).
    now rewrite Hsplit, pop_cons, Hpop. }
  split; [exact Hshort|].
  unfold product_url. rewrite Hshort, Hne. reflexivity.
Qed.

Lemma product_url_of_gid_witness :
  product_url {| handle := "some-product";
                 variantId := Some ("gid://shopify/ProductVariant" ++ "/"
                                    ++ "12345");
                 source := "barcode" |}
  = "https://decathlon.re/products/some-product?variant=12345".
Proof.
  apply (product_url_of_gid "some-product" "gid://shopify/ProductVariant"
           "12345" "barcode"); reflexivity.
Defined.

(** ** Order inside a priority tier *)

Lemma sort_insert_tier (k : Z) (x : string) (l : list string) :
  filter (fun y => (score y =? k)%Z) (sort_insert comparator x l)
  = filter (fun y => (score y =? k)%Z) (x :: l).
Proof.
  induction l as [|y r IH]; [reflexivity|].
  cbn [sort_insert].
  destruct (comparator x y <=? 0)%Z eqn:E; [reflexivity|].
  apply Z.leb_gt in E. unfold comparator in E.
  cbn [filter] in *. rewrite IH.
  destruct (score y =? k)%Z eqn:Ey, (score x =? k)%Z eqn:Ex; try reflexivity.
  apply Z.eqb_eq in Ey, Ex. lia.
Qed.

Lemma Array_sort_tier (k : Z) (l : list string) :
  filter (fun y => (score y =? k)%Z) (Array_sort comparator l)
  = filter (fun y => (score y =? k)%Z) l.
Proof.
  induction l as [|x r IH]; [reflexivity|].
  cbn [Array_sort]. rewrite sort_insert_tier.
  cbn [filter]. now rewrite IH.
Qed.

(** X21. Inside a priority tier the candidates of a URL keep the order in
    which the [try] block first added them to the set: query keys in the
    order of the key list, then the path segment, then the fragment
    ([Array.prototype.sort] being stable). *)
Theorem extractCandidates_tier_order (URL_parse : string -> option URL)
    (r : string) (u : URL) (l : list string) (k : Z) :
  Str.is_empty r = false ->
  isURL r = true ->
  URL_parse (Str.trim r) = Some u ->
  extractCandidates URL_parse (Some r) = Normal l ->
  filter (fun y => (score y =? k)%Z) l
  = filter (fun y => (score y =? k)%Z)
      (snd (scrape_URL URL_parse (Str.trim r) [])).
Proof.
  intros Hr Hu Hp. rewrite (extract_URL_store URL_parse r u Hr Hu Hp).
  intros [= <-]. apply Array_sort_tier.
Qed.

Lemma extractCandidates_tier_order_witness :
  filter (fun y => (score y =? 0)%Z) [EmptyString; "p"; "AB-1"]
  = [EmptyString; "p"; "AB-1"].
Proof.
  rewrite (extractCandidates_tier_order URL_table
             "https://decathlon.re/p?sku=%20#Code=AB-1/x"
             {| searchParams := [("sku", " ")]; pathname := "/p";
                hash := "#Code=AB-1/x" |}
             [EmptyString; "p"; "AB-1"] 0 eq_refl eq_refl eq_refl eq_refl).
  reflexivity.
Defined.

(** ** What the two slips of the extractor lead to on the routes *)

Section Slips.

Variable URL_parse : string -> option URL.
Variable upstream : Trace -> Request -> Reply.

(** X22. A URL-shaped [raw] that does not parse is answered with the
    search fallback and an empty [tried] list at once: no request is sent
    upstream. *)
Theorem scan_lookup_malformed_URL (r : string) (t : Trace) :
  Str.is_empty r = false ->
  isURL r = true ->
  URL_parse (Str.trim r) = None ->
  scan_lookup URL_parse upstream (Some r) t
  = (Normal (Json 200
       (ResultBody None None "fallback:search"
          ("https://decathlon.re/search?q="
           ++ Str.encodeURIComponent (Str.trim r)) [])), t)
  /\ r_redirect URL_parse upstream (Some r) t
     = (Normal (Redirect 302
          ("https://decathlon.re/search?q="
           ++ Str.encodeURIComponent (Str.trim r))), t).
Proof.
  intros Hr Hu Hp.
  assert (Hu' : isURL (Str.trim r) = true).
  { unfold isURL in *. now rewrite trim_idempotent. }
  assert (Hc : extractCandidates URL_parse (Some r) = Normal []).
  { unfold extractCandidates. rewrite Hr, Hu'.
    unfold try_catch, scrape_URL, new_URL, bind, throw. now rewrite Hp. }
  rewrite (scan_lookup_run _ _ _ _ _ Hr Hc).
  rewrite (r_redirect_run _ _ _ _ _ Hr Hc). split; reflexivity.
Qed.

(** X23. A [raw] of white space only passes the guard of the routes, gives
    the empty string as its one candidate, and costs exactly one request:
    the product query with an empty search text. *)
Theorem scan_lookup_blank_raw (r : string) (t new : Trace) :
  Str.is_empty r = false ->
  Str.trim r = EmptyString ->
  snd (scan_lookup URL_parse upstream (Some r) t) = (t ++ new)%list ->
  extractCandidates URL_parse (Some r) = Normal [EmptyString]
  /\ map fst new
     = [{| query := Q_PRODUCTS_BY_QUERY; variables := EmptyString |}].
Proof.
  intros Hr Ht Hsnd.
  assert (Hc : extractCandidates URL_parse (Some r) = Normal [EmptyString]).
  { unfold extractCandidates. rewrite Hr, Ht. reflexivity. }
  split; [exact Hc|].
  rewrite (scan_lookup_run _ _ _ _ _ Hr Hc) in Hsnd. cbn [snd] in Hsnd.
  rewrite first_hit_step in Hsnd.
  assert (Hres : snd (resolveHandleFromCode upstream EmptyString t)
                 = (t ++ new)%list).
  { destruct (resolveHandleFromCode upstream EmptyString t)
      as [[[res|]|e] t1]; exact Hsnd. }
  destruct (resolve_post upstream EmptyString t)
    as (new1 & Hsnd1 & [n Hn] & _).
  rewrite Hsnd1 in Hres. apply app_inv_head in Hres. subst new1.
  pose proof (resolve_as_cascade upstream EmptyString t) as Hcas.
  destruct (run_cascade_outcome upstream (Str.trim EmptyString)
              cascade_order t) as (new2 & Hsnd2 & Hout).
  rewrite <- Hcas, Hsnd1 in Hsnd2. apply app_inv_head in Hsnd2. subst new2.
  assert (Hlow : 1 <= List.length new).
  { rewrite <- Hcas in Hout.
    destruct (fst (resolveHandleFromCode upstream EmptyString t))
      as [[res|]|e].
    - destruct Hout as (pre & j & st & -> & _).
      rewrite length_app. cbn. lia.
    - destruct Hout as [Hmap _].
      apply (f_equal (@List.length Request)) in Hmap.
      rewrite length_map in Hmap. rewrite Hmap. cbn. lia.
    - destruct Hout as (pre & rq & j & -> & _).
      rewrite length_app. cbn. lia. }
  rewrite Hn. change (planned (Str.trim EmptyString))
    with [{| query := Q_PRODUCTS_BY_QUERY; variables := EmptyString |}].
  destruct n as [|n].
  - apply (f_equal (@List.length Request)) in Hn.
    rewrite length_map in Hn. cbn in Hn. lia.
  - cbn [firstn]. now rewrite firstn_nil.
Qed.

End Slips.

Lemma scan_lookup_malformed_URL_witness :
  scan_lookup URL_table catalog_sample (Some "https://") []
  = (Normal (Json 200
       (ResultBody None None "fallback:search"
          "https://decathlon.re/search?q=https%3A%2F%2F" [])), []).
Proof.
  apply (scan_lookup_malformed_URL URL_table catalog_sample "https://" []);
    reflexivity.
Defined.

Lemma scan_lookup_blank_raw_witness :
  map fst (snd (scan_lookup URL_table catalog_empty (Some "   ") []))
  = [{| query := Q_PRODUCTS_BY_QUERY; variables := EmptyString |}].
Proof.
  apply (scan_lookup_blank_raw URL_table catalog_empty "   " []
           (snd (scan_lookup URL_table catalog_empty (Some "   ") []))
           eq_refl eq_refl eq_refl).
Defined.

(** ** Replies that cannot be read *)

Section BrokenReplies.

Variable URL_parse : string -> option URL.
Variable upstream : Trace -> Request -> Reply.

Lemma first_hit_broke (cands : list string) (t new : Trace) :
  snd (first_hit upstream cands t) = (t ++ new)%list ->
  Exists (fun x => call_broke x = true) new ->
  exists e, fst (first_hit upstream cands t) = Throw e.
Proof.
  intros Hsnd Hex.
  destruct (first_hit_outcome upstream cands t)
    as (new0 & Hsnd0 & _ & Hout).
  rewrite Hsnd0 in Hsnd. apply app_inv_head in Hsnd. subst new0.
  assert (Hnq : Forall call_quiet new -> False).
  { intros Hq. apply Exists_exists in Hex as (x & Hin & Hx).
    rewrite Forall_forall in Hq. destruct (Hq x Hin) as (_ & _ & H).
    congruence. }
  destruct (fst (first_hit upstream cands t)) as [[res|]|e]; [|tauto|eauto].
  exfalso. destruct Hout as (pre & c & post & t1 & _ & Hpre & Hres).
  destruct (first_hit_outcome upstream pre t) as (mid & Hsnd1 & _ & Hout1).
  rewrite Hpre in Hsnd1, Hout1. cbn [fst snd] in *. subst t1.
  destruct Hout1 as [_ Hq1].
  pose proof (resolve_as_cascade upstream c (t ++ mid)%list) as Hcas.
  destruct (run_cascade_outcome upstream (Str.trim c) cascade_order
              (t ++ mid)%list) as (last & Hsnd2 & Hout2).
  rewrite <- Hcas, Hres in Hsnd2, Hout2. cbn [fst snd] in *.
  rewrite <- app_assoc in Hsnd2. apply app_inv_head in Hsnd2. subst new.
  destruct Hout2 as (pre2 & j & st & -> & Hq2 & Hr2 & _).
  destruct (reply_result_match _ _ _ _ Hr2) as (_ & _ & Hm & _).
  apply Exists_app in Hex as [Hex|Hex];
    [|apply Exists_app in Hex as [Hex|Hex]].
  - apply Exists_exists in Hex as (x & Hin & Hx).
    rewrite Forall_forall in Hq1. destruct (Hq1 x Hin) as (_ & _ & H).
    congruence.
  - apply Exists_exists in Hex as (x & Hin & Hx).
    rewrite Forall_forall in Hq2. destruct (Hq2 x Hin) as (_ & _ & H).
    congruence.
  - inversion Hex as [? ? H1|? ? H1]; [|inversion H1].
    unfold call_broke, reply_breaks, reply_matches in *. cbn [fst snd] in *.
    destruct (reply_result (query (request_of (Str.trim c) st))
                EmptyString j) as [[?|]|?];
      try discriminate; rewrite andb_false_r in H1; discriminate.
Qed.

(** X24. A reply that returns without [errors] but whose data cannot be
    read (no [data], no connection, or a product with a handle and no
    [variants]) ends the lookup like a failed call: the JSON route answers
    500 [lookup_failed] and the redirect route goes to the search URL. *)
Theorem routes_on_unreadable_reply (raw : option string) (t new : Trace) :
  snd (scan_lookup URL_parse upstream raw t) = (t ++ new)%list ->
  Exists (fun x => call_broke x = true) new ->
  fst (scan_lookup URL_parse upstream raw t)
  = Normal (Json 500 (ErrorBody "lookup_failed"))
  /\ exists r,
       raw = Some r
       /\ fst (r_redirect URL_parse upstream raw t)
          = Normal (Redirect 302
              ("https://decathlon.re/search?q="
               ++ Str.encodeURIComponent (Str.trim r))).
Proof.
  intros Hsnd Hex.
  destruct (raw_cases raw) as [Hm|(r & -> & Hr)].
  { exfalso.
    destruct (routes_missing_raw URL_parse upstream raw t Hm) as [H1 _].
    rewrite H1 in Hsnd. cbn [snd] in Hsnd.
    apply app_self_nil in Hsnd. subst new. inversion Hex. }
  destruct (extractCandidates_shape URL_parse (Some r)) as (out & _ & Hc).
  rewrite (scan_lookup_run _ _ _ _ _ Hr Hc) in *.
  rewrite (r_redirect_run _ _ _ _ _ Hr Hc). cbn [fst snd] in *.
  destruct (first_hit_broke _ _ _ Hsnd Hex) as [e He]. rewrite He.
  split; [reflexivity|]. exists r. auto.
Qed.

End BrokenReplies.

Lemma routes_on_unreadable_reply_witness :
  fst (scan_lookup URL_table catalog_no_data (Some "6401234") [])
  = Normal (Json 500 (ErrorBody "lookup_failed")).
Proof.
  apply (routes_on_unreadable_reply URL_table catalog_no_data
           (Some "6401234") []
           (snd (scan_lookup URL_table catalog_no_data (Some "6401234") []))
           eq_refl).
  constructor. reflexivity.
Defined.
